(** * Socket.io chat relay: session, presence and room router

    A shallow embedding of the server side of the chat application:
    - [server/socket/index.js]   (the [socketHandler] event handlers),
    - [server/server.js]         (the [/chat] namespace: [send_message] with
                                  acknowledgement and the second
                                  [message:delivered] handler),
    - [server/controllers/messageController.js] ([sendMessage],
                                  [toggleReaction]),
    - [server/routes/message.routes.js] (the paginated history route),
    - [server/models/message.js], [server/models/user.js] (the schemas).

    Every handler is a function from the server state, the socket on which
    the event arrived and the event payload to a new server state and the
    list of outbound effects (emits to a target, acknowledgement calls,
    error logs) in the order the code issues them. The model takes one
    event at a time: a handler runs to its end before the next event is
    taken, while the program may take another event wherever a handler
    awaits the store; the properties below are about one run of a handler,
    or about runs that follow one another. Wall-clock time stamps and the
    loss of an emit in transport are left out. Ids are strings: that the
    store accepts only the 24 hexadecimal digits of an ObjectId where the
    schema asks for one is not part of the model. *)

From stdpp Require Import gmap strings list fin_maps pretty sorting.
From Stdlib Require Import String Ascii.

#[local] Set Warnings "-clear-no-such-hyp".

Local Open Scope string_scope.
Local Open Scope list_scope.
Local Open Scope stdpp_scope.

(** ** JavaScript helpers *)

Module JS.

(** Truthiness of an optional string: [undefined], [null] and [""] are
    falsy. *)
Definition truthy (o : option string) : bool :=
  match o with
  | Some s => negb (String.eqb s "")
  | None => false
  end.

(** [o || d] on an optional string. *)
Definition or_default (o : option string) (d : string) : string :=
  match o with
  | Some s => if String.eqb s "" then d else s
  | None => d
  end.

(** [o || []] on an optional array ([[]] itself is truthy). *)
Definition or_empty {A} (o : option (list A)) : list A :=
  match o with Some l => l | None => [] end.

(** [o?.length] used as a condition. *)
Definition has_length {A} (o : option (list A)) : bool :=
  match o with Some (_ :: _) => true | _ => false end.

(** [o?.startsWith(p)] used as a condition. *)
Definition startsWith (o : option string) (p : string) : bool :=
  match o with Some s => String.prefix p s | None => false end.

(** [Array.prototype.sort()] with the default comparator on an array of
    strings, stable. A string is its UTF-8 bytes and the order is the order
    of the bytes; it is the order of the UTF-16 code units that the program
    compares except between a character above U+FFFF and one from U+E000 to
    U+FFFF. *)
Fixpoint insert_sorted (x : string) (l : list string) : list string :=
  match l with
  | [] => [x]
  | y :: l' => if String.ltb y x then y :: insert_sorted x l' else x :: y :: l'
  end.

Definition sort (l : list string) : list string :=
  foldr insert_sorted [] l.

(** [Array.prototype.join(sep)]. *)
Fixpoint join (sep : string) (l : list string) : string :=
  match l with
  | [] => ""
  | [x] => x
  | x :: l' => x +:+ sep +:+ join sep l'
  end.

(** [String.prototype.trim]: the white space and the line terminators of
    the language are stripped at both ends. A string is its UTF-8 bytes:
    [space1] is a white space of one byte (U+0009 to U+000D, U+0020),
    [space2] of two (U+00A0), [space3] of three (U+1680, U+2000 to U+200A,
    U+2028, U+2029, U+202F, U+205F, U+3000, U+FEFF). *)
Definition space1 (a : ascii) : bool :=
  let n := nat_of_ascii a in
  (n =? 32)%nat || ((9 <=? n)%nat && (n <=? 13)%nat).

Definition space2 (a b : ascii) : bool :=
  (nat_of_ascii a =? 194)%nat && (nat_of_ascii b =? 160)%nat.

Definition space3 (a b c : ascii) : bool :=
  let x := nat_of_ascii a in
  let y := nat_of_ascii b in
  let z := nat_of_ascii c in
  ((x =? 225)%nat && (y =? 154)%nat && (z =? 128)%nat)
  || ((x =? 226)%nat && (y =? 128)%nat
      && (((128 <=? z)%nat && (z <=? 138)%nat)
          || (z =? 168)%nat || (z =? 169)%nat || (z =? 175)%nat))
  || ((x =? 226)%nat && (y =? 129)%nat && (z =? 159)%nat)
  || ((x =? 227)%nat && (y =? 128)%nat && (z =? 128)%nat)
  || ((x =? 239)%nat && (y =? 187)%nat && (z =? 191)%nat).

(** The white space at the front of a list of bytes is dropped; with
    [backwards] the list is a string read from its end, and the bytes of a
    character come last byte first. *)
Fixpoint drop_spaces (backwards : bool) (l : list ascii) : list ascii :=
  match l with
  | a :: l1 =>
      if space1 a then drop_spaces backwards l1
      else
        match l1 with
        | b :: l2 =>
            if (if backwards then space2 b a else space2 a b)
            then drop_spaces backwards l2
            else
              match l2 with
              | c :: l3 =>
                  if (if backwards then space3 c b a else space3 a b c)
                  then drop_spaces backwards l3
                  else l
              | [] => l
              end
        | [] => l
        end
  | [] => []
  end.

Definition trim (s : string) : string :=
  string_of_list_ascii
    (reverse (drop_spaces true
                (reverse (drop_spaces false (list_ascii_of_string s))))).

End JS.

(** ** Documents (server/models) *)

Record Attachment := {
  url : string;
  filename : string;
  contentType : string;
  size : nat
}.

Record Reaction := {
  emoji : string;
  users : list string
}.

(** [meta.deliveredBy] is kept as the field [deliveredBy]; [createdAt] is the
    value of the store's clock when the document was created. *)
Record Message := {
  m_id : string;
  roomId : string;
  senderId : string;
  senderName : string;
  recipients : list string;
  content : string;
  attachments : list Attachment;
  readBy : list string;
  reactions : list Reaction;
  deliveredBy : list string;
  createdAt : nat
}.

Record User := {
  u_id : string;
  username : string;
  isOnline : bool;
  socketId : option string
}.

Inductive Error :=
| ValidationError (path : string)
| StorageError.

(** The document store. [healthy = false] makes every operation fail with
    [StorageError]; [writes] counts the successful [create] and [save]
    calls; [clock] supplies both the fresh ids and [createdAt]. *)
Record Db := {
  messages : list Message;
  accounts : list User;
  clock : nat;
  writes : nat;
  healthy : bool
}.

Definition empty_db : Db :=
  {| messages := []; accounts := []; clock := 0; writes := 0; healthy := true |}.

(** ** Payloads *)

Record SendPayload := {
  p_roomId : option string;
  p_senderId : option string;
  p_senderName : option string;
  p_recipients : option (list string);
  p_content : option string;
  p_attachments : option (list Attachment)
}.

(** The argument of [Message.create]. *)
Record MessageFields := {
  f_roomId : string;
  f_senderId : option string;
  f_senderName : option string;
  f_recipients : list string;
  f_content : option string;
  f_attachments : list Attachment
}.

Module Store.

Definition guard (db : Db) : Error + unit :=
  if healthy db then inr tt else inl StorageError.

(** Schema validation of [messageSchema]: [senderId] and [senderName] are
    [required] (a missing or empty value is rejected), and so is the [url]
    of every attachment; [content] is not required, defaults to [""] and is
    trimmed. Ids are plain strings: the cast of an id to an ObjectId is not
    part of the model. *)
Definition validate (f : MessageFields) : Error + unit :=
  if negb (JS.truthy (f_senderId f)) then inl (ValidationError "senderId")
  else if negb (JS.truthy (f_senderName f)) then inl (ValidationError "senderName")
  else if negb (forallb (λ a, negb (String.eqb (url a) "")) (f_attachments f))
  then inl (ValidationError "attachments.url")
  else inr tt.

(** Validation of the reaction entries of a document: [emoji] is
    [required]. *)
Definition validate_reactions (doc : Message) : Error + unit :=
  if forallb (λ r, negb (String.eqb (emoji r) "")) (reactions doc) then inr tt
  else inl (ValidationError "reactions.emoji").

Definition message_id (n : nat) : string := "m" +:+ pretty n.
Definition user_id (n : nat) : string := "u" +:+ pretty n.

(** [Message.create(fields)]: the document is validated before the store
    is reached. *)
Definition create (db : Db) (f : MessageFields) : Error + (Db * Message) :=
  match validate f with
  | inl e => inl e
  | inr _ =>
      match guard db with
      | inl e => inl e
      | inr _ =>
          let doc := {| m_id := message_id (clock db);
                        roomId := f_roomId f;
                        senderId := default "" (f_senderId f);
                        senderName := default "" (f_senderName f);
                        recipients := f_recipients f;
                        content := JS.trim (default "" (f_content f));
                        attachments := f_attachments f;
                        readBy := [];
                        reactions := [];
                        deliveredBy := [];
                        createdAt := clock db |} in
          inr ({| messages := messages db ++ [doc];
                  accounts := accounts db;
                  clock := S (clock db);
                  writes := S (writes db);
                  healthy := healthy db |}, doc)
      end
  end.

(** [Message.findById(id)]. *)
Definition findById (db : Db) (id : string) : Error + option Message :=
  match guard db with
  | inl e => inl e
  | inr _ => inr (snd <$> list_find (λ m, m_id m = id) (messages db))
  end.

(** [msg.save()] of a document loaded from the store, after a change to a
    path that has no validator ([readBy]): the stored document with the id
    of [doc] is replaced. The paths left as they were loaded are taken to
    pass validation, as they did when they were written. *)
Definition save (db : Db) (doc : Message) : Error + Db :=
  match guard db with
  | inl e => inl e
  | inr _ =>
      let ms :=
        match list_find (λ m, m_id m = m_id doc) (messages db) with
        | Some (i, _) => <[i := doc]> (messages db)
        | None => messages db
        end in
      inr {| messages := ms;
             accounts := accounts db;
             clock := clock db;
             writes := S (writes db);
             healthy := healthy db |}
  end.

(** [msg.save()] after a change to [reactions]: the entries are validated
    before the store is reached. *)
Definition save_reactions (db : Db) (doc : Message) : Error + Db :=
  match validate_reactions doc with
  | inl e => inl e
  | inr _ => save db doc
  end.

(** [msg.save()] of a document loaded from the store, after a change made
    in place inside [meta], a [Mixed] path, with no [markModified("meta")]:
    no path of the document is marked as modified, so nothing is written
    and the stored document stays as it is, whatever [doc] holds. *)
Definition save_untracked (db : Db) (doc : Message) : Error + Db :=
  match guard db with
  | inl e => inl e
  | inr _ => inr db
  end.

(** Sorting a result set by [createdAt]: [sort({createdAt: 1})] is
    [sort_asc], [sort({createdAt: -1})] is [sort_desc]. Both are stable. *)
Fixpoint insert_asc (x : Message) (l : list Message) : list Message :=
  match l with
  | [] => [x]
  | y :: l' =>
      if (createdAt y <? createdAt x)%nat then y :: insert_asc x l'
      else x :: y :: l'
  end.

Definition sort_asc (l : list Message) : list Message := foldr insert_asc [] l.

Fixpoint insert_desc (x : Message) (l : list Message) : list Message :=
  match l with
  | [] => [x]
  | y :: l' =>
      if (createdAt x <? createdAt y)%nat then y :: insert_desc x l'
      else x :: y :: l'
  end.

Definition sort_desc (l : list Message) : list Message := foldr insert_desc [] l.

(** [Message.find({roomId})], before [sort]/[skip]/[limit]. *)
Definition in_room (db : Db) (r : string) : list Message :=
  filter (λ m, roomId m = r) (messages db).

(** [Message.find({roomId}).sort({createdAt: 1}).limit(n)]. *)
Definition find_asc_limit (db : Db) (r : string) (n : nat)
  : Error + list Message :=
  match guard db with
  | inl e => inl e
  | inr _ => inr (take n (sort_asc (in_room db r)))
  end.

(** [Message.find({roomId}).sort({createdAt: -1}).skip(k).limit(n)]. *)
Definition find_desc_skip_limit (db : Db) (r : string) (k n : nat)
  : Error + list Message :=
  match guard db with
  | inl e => inl e
  | inr _ => inr (take n (drop k (sort_desc (in_room db r))))
  end.

End Store.

(** [User] collection operations. *)
Module Accounts.

Definition findById (db : Db) (id : string) : Error + option User :=
  match Store.guard db with
  | inl e => inl e
  | inr _ => inr (snd <$> list_find (λ u, u_id u = id) (accounts db))
  end.

Definition findOne (db : Db) (name : string) : Error + option User :=
  match Store.guard db with
  | inl e => inl e
  | inr _ => inr (snd <$> list_find (λ u, username u = name) (accounts db))
  end.

(** [User.create({ username, isOnline: true, socketId })]. *)
Definition create (db : Db) (name : string) (sid : string)
  : Error + (Db * User) :=
  match Store.guard db with
  | inl e => inl e
  | inr _ =>
      if String.eqb name "" then inl (ValidationError "username")
      else
        let doc := {| u_id := Store.user_id (clock db); username := name;
                      isOnline := true; socketId := Some sid |} in
        inr ({| messages := messages db;
                accounts := accounts db ++ [doc];
                clock := S (clock db);
                writes := S (writes db);
                healthy := healthy db |}, doc)
  end.

Definition save (db : Db) (doc : User) : Error + Db :=
  match Store.guard db with
  | inl e => inl e
  | inr _ =>
      let us :=
        match list_find (λ u, u_id u = u_id doc) (accounts db) with
        | Some (i, _) => <[i := doc]> (accounts db)
        | None => accounts db
        end in
      inr {| messages := messages db;
             accounts := us;
             clock := clock db;
             writes := S (writes db);
             healthy := healthy db |}
  end.

End Accounts.

(** ** The relay state *)

(** A JavaScript [Map] keeps its keys in insertion order; [set] on a present
    key replaces the value in place. *)
Module JSMap.
Section WithValue.
Context {V : Type}.

Fixpoint set (k : string) (v : V) (m : list (string * V)) : list (string * V) :=
  match m with
  | [] => [(k, v)]
  | (k', v') :: m' =>
      if String.eqb k' k then (k, v) :: m' else (k', v') :: set k v m'
  end.

Fixpoint get (k : string) (m : list (string * V)) : option V :=
  match m with
  | [] => None
  | (k', v') :: m' => if String.eqb k' k then Some v' else get k m'
  end.

Fixpoint delete (k : string) (m : list (string * V)) : list (string * V) :=
  match m with
  | [] => []
  | (k', v') :: m' =>
      if String.eqb k' k then m' else (k', v') :: delete k m'
  end.

Definition values (m : list (string * V)) : list V := map snd m.
End WithValue.
End JSMap.

(** [onlineUsers] is the map of [socketHandler] (socket id to user
    document); [rooms] is the adapter's room index (room name to the set of
    socket ids); [sockets] is the set of connected sockets of the
    namespace. *)
Record Server := {
  db : Db;
  onlineUsers : list (string * User);
  rooms : gmap string (gset string);
  sockets : gset string
}.

Definition with_db (s : Server) (d : Db) : Server :=
  {| db := d; onlineUsers := onlineUsers s; rooms := rooms s; sockets := sockets s |}.

Definition with_onlineUsers (s : Server) (o : list (string * User)) : Server :=
  {| db := db s; onlineUsers := o; rooms := rooms s; sockets := sockets s |}.

Definition with_rooms (s : Server) (r : gmap string (gset string)) : Server :=
  {| db := db s; onlineUsers := onlineUsers s; rooms := r; sockets := sockets s |}.

Definition empty_server : Server :=
  {| db := empty_db; onlineUsers := []; rooms := ∅; sockets := ∅ |}.

Module Rooms.

Definition members (rs : gmap string (gset string)) (r : string) : gset string :=
  default ∅ (rs !! r).

(** [socket.join(r)]. *)
Definition join (rs : gmap string (gset string)) (r sid : string)
  : gmap string (gset string) :=
  <[r := {[sid]} ∪ members rs r]> rs.

(** [socket.leave(r)]: an emptied room is dropped from the index. *)
Definition leave (rs : gmap string (gset string)) (r sid : string)
  : gmap string (gset string) :=
  match rs !! r with
  | None => rs
  | Some m =>
      let m' := m ∖ {[sid]} in
      if decide (m' = ∅) then delete r rs else <[r := m']> rs
  end.

(** [io.to(src).socketsJoin(r)]. *)
Definition socketsJoin (rs : gmap string (gset string)) (src r : string)
  : gmap string (gset string) :=
  let joining := members rs src in
  if decide (joining = ∅) then rs else <[r := joining ∪ members rs r]> rs.

(** What the adapter does when a socket closes: it leaves every room. *)
Definition purge (rs : gmap string (gset string)) (sid : string)
  : gmap string (gset string) :=
  filter (λ kv, kv.2 ≠ ∅) ((λ m, m ∖ {[sid]}) <$> rs).

End Rooms.

(** ** Outbound effects *)

Inductive Target :=
| ToAll                                   (* io.emit *)
| ToRoom (r : string)                     (* io.to(r).emit *)
| ToSocket (sid : string)                 (* socket.emit *)
| ToOthers (sid : string)                 (* socket.broadcast.emit *)
| ToRoomExcept (r : string) (sid : string) (* socket.to(r).emit *).

Record Receipt := {
  messageId : string;
  userId : string
}.

Record OnlineUser := {
  o_id : string;
  o_username : string;
  o_isOnline : bool
}.

(** The [timestamp] of a notification is the wall clock and is left out. *)
Inductive Body :=
| BMessage (m : Message)
| BHistory (h : list Message)
| BUsers (l : list OnlineUser)
| BNotification (type message : string) (data : list (string * string))
| BReceipt (r : Receipt)
| BReaction (messageId : string) (rs : list Reaction)
| BTyping (user : string).

Inductive AckArgs :=
| AckDelivered (m : Message)   (* callback(null, { status: "delivered", message }) *)
| AckError (e : Error)         (* callback(err) *).

(** An emit records, next to its target, the set of sockets the target
    denotes at the moment of the emit. *)
Inductive Effect :=
| Emit (t : Target) (reach : gset string) (event : string) (b : Body)
| Ack (a : AckArgs)
| Log (label : string) (e : Error).

(** The sockets an emit reaches. *)
Definition receivers (s : Server) (t : Target) : gset string :=
  match t with
  | ToAll => sockets s
  | ToRoom r => Rooms.members (rooms s) r
  | ToSocket sid => {[sid]}
  | ToOthers sid => sockets s ∖ {[sid]}
  | ToRoomExcept r sid => Rooms.members (rooms s) r ∖ {[sid]}
  end.

(** ** Handler monad: state, trace and exceptions *)

Definition M (A : Type) : Type := Server → Server * list Effect * (Error + A).

Definition ret {A} (a : A) : M A := λ s, (s, [], inr a).

Definition bind {A B} (m : M A) (k : A → M B) : M B :=
  λ s,
    match m s with
    | (s1, t1, inl e) => (s1, t1, inl e)
    | (s1, t1, inr a) =>
        match k a s1 with
        | (s2, t2, r) => (s2, t1 ++ t2, r)
        end
    end.

Notation "'let*' x := m 'in' k" := (bind m (λ x, k))
  (at level 10, x name, m at level 100, k at level 200).

Definition throw {A} (e : Error) : M A := λ s, (s, [], inl e).

Definition emit (t : Target) (event : string) (b : Body) : M unit :=
  λ s, (s, [Emit t (receivers s t) event b], inr tt).

Definition ack (a : AckArgs) : M unit := λ s, (s, [Ack a], inr tt).

Definition log (label : string) (e : Error) : M unit :=
  λ s, (s, [Log label e], inr tt).

(** [try { m } catch (err) { h err }]. *)
Definition try_catch (m : M unit) (h : Error → M unit) : M unit :=
  λ s,
    match m s with
    | (s1, t1, inl e) =>
        match h e s1 with
        | (s2, t2, r) => (s2, t1 ++ t2, r)
        end
    | r => r
    end.

(** A store operation that reads. *)
Definition query {A} (f : Db → Error + A) : M A :=
  λ s, match f (db s) with
       | inl e => (s, [], inl e)
       | inr a => (s, [], inr a)
       end.

(** A store operation that writes. *)
Definition update (f : Db → Error + Db) : M unit :=
  λ s, match f (db s) with
       | inl e => (s, [], inl e)
       | inr d => (with_db s d, [], inr tt)
       end.

Definition insert_doc {A} (f : Db → Error + (Db * A)) : M A :=
  λ s, match f (db s) with
       | inl e => (s, [], inl e)
       | inr (d, a) => (with_db s d, [], inr a)
       end.

Definition modify (f : Server → Server) : M unit := λ s, (f s, [], inr tt).

Definition get_state : M Server := λ s, (s, [], inr s).

Definition when (b : bool) (m : M unit) : M unit := if b then m else ret tt.

Fixpoint for_each {A} (l : list A) (f : A → M unit) : M unit :=
  match l with
  | [] => ret tt
  | x :: l' => let* _ := f x in for_each l' f
  end.

(** The state and the trace a handler leaves behind. *)
Definition run (m : M unit) (s : Server) : Server * list Effect :=
  let '(s', t, _) := m s in (s', t).

Definition state_after (m : M unit) (s : Server) : Server := (run m s).1.
Definition trace_of (m : M unit) (s : Server) : list Effect := (run m s).2.

(** ** Payloads of the remaining events *)

Record JoinPayload := {
  j_username : option string;
  j_userId : option string
}.

(** The ids of a private message are strings; a missing id is outside this
    type. *)
Record PrivatePayload := {
  pm_toUserId : string;
  pm_content : option string;
  pm_senderId : string;
  pm_senderName : option string;
  pm_attachments : option (list Attachment)
}.

(** In [Receipt] and [ReactPayload] the empty string is the falsy value. *)
Record ReactPayload := {
  r_messageId : string;
  r_emoji : string;
  r_userId : string
}.

Record TypingPayload := {
  t_roomId : option string;
  t_user : string
}.

Definition to_string (o : option string) : string := default "undefined" o.

Definition set_readBy (m : Message) (l : list string) : Message :=
  {| m_id := m_id m; roomId := roomId m; senderId := senderId m;
     senderName := senderName m; recipients := recipients m;
     content := content m; attachments := attachments m;
     readBy := l; reactions := reactions m;
     deliveredBy := deliveredBy m; createdAt := createdAt m |}.

Definition set_reactions (m : Message) (l : list Reaction) : Message :=
  {| m_id := m_id m; roomId := roomId m; senderId := senderId m;
     senderName := senderName m; recipients := recipients m;
     content := content m; attachments := attachments m;
     readBy := readBy m; reactions := l;
     deliveredBy := deliveredBy m; createdAt := createdAt m |}.

Definition set_deliveredBy (m : Message) (l : list string) : Message :=
  {| m_id := m_id m; roomId := roomId m; senderId := senderId m;
     senderName := senderName m; recipients := recipients m;
     content := content m; attachments := attachments m;
     readBy := readBy m; reactions := reactions m;
     deliveredBy := l; createdAt := createdAt m |}.

(** The room key of a private conversation
    ([`private:${[senderId, toUserId].sort().join(":")}`]). *)
Definition privateRoomKey (senderId toUserId : string) : string :=
  "private:" +:+ JS.join ":" (JS.sort [senderId; toUserId]).

(** The room every socket of a user joins on [user:join]. *)
Definition user_room (id : string) : string := "user:" +:+ id.

(** ** Reactions *)

Module Reactions.

Definition lookup (rs : list Reaction) (e : string) : option (nat * Reaction) :=
  list_find (λ r, emoji r = e) rs.

(** The body of [message:react] once the message is loaded: [find] the
    entry of the emoji; without one, [push] a new entry; otherwise
    [findIndex] the user and [push] or [splice(idx, 1)]. *)
Definition toggle (rs : list Reaction) (e u : string) : list Reaction :=
  match lookup rs e with
  | None => rs ++ [{| emoji := e; users := [u] |}]
  | Some (i, r) =>
      let us :=
        match list_find (λ x, x = u) (users r) with
        | None => users r ++ [u]
        | Some (idx, _) => delete idx (users r)
        end in
      <[i := {| emoji := emoji r; users := us |}]> rs
  end.

(** The body of the controller's [toggleReaction]: [includes] and then
    [pull] (which removes every occurrence) or [push]. *)
Definition toggle_pull (rs : list Reaction) (e u : string) : list Reaction :=
  match lookup rs e with
  | Some (i, r) =>
      let us :=
        if bool_decide (u ∈ users r)
        then filter (λ x, x ≠ u) (users r)
        else users r ++ [u] in
      <[i := {| emoji := emoji r; users := us |}]> rs
  | None => rs ++ [{| emoji := e; users := [u] |}]
  end.

(** Is [u] in the user set of the entry of [e]? *)
Definition reacted (rs : list Reaction) (e u : string) : bool :=
  match lookup rs e with
  | Some (_, r) => bool_decide (u ∈ users r)
  | None => false
  end.

End Reactions.

(** ** server/socket/index.js *)

Module SocketHandler.

Definition history_limit : nat := 100.

Definition snapshot (s : Server) : list OnlineUser :=
  map (λ u, {| o_id := u_id u; o_username := username u;
               o_isOnline := isOnline u |})
      (JSMap.values (onlineUsers s)).

Definition broadcastOnlineUsers : M unit :=
  let* s := get_state in
  emit ToAll "users:online" (BUsers (snapshot s)).

Definition sendNotification (type message : string)
    (data : list (string * string)) : M unit :=
  emit ToAll "notification" (BNotification type message data).

Definition set_online (u : User) (sid : string) : User :=
  {| u_id := u_id u; username := username u;
     isOnline := true; socketId := Some sid |}.

Definition set_offline (u : User) : User :=
  {| u_id := u_id u; username := username u;
     isOnline := false; socketId := None |}.

(** [socket.on("user:join", ...)]. *)
Definition on_user_join (sid : string) (userData : option JoinPayload) : M unit :=
  try_catch
    (let name : option string := userData ≫= j_username in
     let id : option string := userData ≫= j_userId in
     let* byId :=
       if JS.truthy id
       then query (λ d, Accounts.findById d (default "" id))
       else ret None in
     let* user :=
       match byId with
       | Some u => ret (Some u)
       | None =>
           if JS.truthy name then
             let* found := query (λ d, Accounts.findOne d (default "" name)) in
             match found with
             | Some u => ret (Some u)
             | None =>
                 let* u := insert_doc (λ d, Accounts.create d (default "" name) sid) in
                 ret (Some u)
             end
           else ret None
       end in
     let* _ :=
       match user with
       | Some u =>
           let u' := set_online u sid in
           let* _ := update (λ d, Accounts.save d u') in
           let* _ := modify (λ s, with_onlineUsers s (JSMap.set sid u' (onlineUsers s))) in
           modify (λ s, with_rooms s (Rooms.join (rooms s) (user_room (u_id u')) sid))
       | None => ret tt
       end in
     let* _ := broadcastOnlineUsers in
     let* history := query (λ d, Store.find_asc_limit d "global" history_limit) in
     let* _ := emit (ToSocket sid) "messages:history" (BHistory history) in
     sendNotification "user-join"
       (JS.or_default (username <$> user) "A user" +:+ " joined the chat") [])
    (λ err, log "user:join error" err).

(** [socket.on("room:join", ...)]; the handler has no [try]. *)
Definition on_room_join (sid : string) (room : option string) : M unit :=
  if negb (JS.truthy room) then ret tt
  else
    let r := default "" room in
    let* _ := modify (λ s, with_rooms s (Rooms.join (rooms s) r sid)) in
    let* history := query (λ d, Store.find_asc_limit d r history_limit) in
    let* _ := emit (ToSocket sid) "messages:history" (BHistory history) in
    sendNotification "room-join" ("A user joined room " +:+ r) [("roomId", r)].

(** [socket.on("room:leave", ...)]. *)
Definition on_room_leave (sid : string) (room : option string) : M unit :=
  if negb (JS.truthy room) then ret tt
  else
    let r := default "" room in
    let* _ := modify (λ s, with_rooms s (Rooms.leave (rooms s) r sid)) in
    sendNotification "room-leave" ("A user left room " +:+ r) [("roomId", r)].

Definition fields_of (payload : SendPayload) : MessageFields :=
  {| f_roomId := JS.or_default (p_roomId payload) "global";
     f_senderId := p_senderId payload;
     f_senderName := p_senderName payload;
     f_recipients := JS.or_empty (p_recipients payload);
     f_content := Some (JS.or_default (p_content payload) "");
     f_attachments := JS.or_empty (p_attachments payload) |}.

(** The block "Emit message to appropriate room(s)" of [message:send]. *)
Definition emit_to_rooms (sid : string) (payload : SendPayload)
    (msgDoc : Message) : M unit :=
  if JS.startsWith (p_roomId payload) "private:" then
    emit (ToRoom (default "" (p_roomId payload))) "message:new" (BMessage msgDoc)
  else if JS.has_length (p_recipients payload) then
    let* _ :=
      for_each (JS.or_empty (p_recipients payload))
        (λ recipientId,
           emit (ToRoom (user_room recipientId)) "message:new" (BMessage msgDoc)) in
    emit (ToSocket sid) "message:new" (BMessage msgDoc)
  else if JS.truthy (p_roomId payload)
          && negb (String.eqb (default "" (p_roomId payload)) "global") then
    emit (ToRoom (default "" (p_roomId payload))) "message:new" (BMessage msgDoc)
  else
    emit ToAll "message:new" (BMessage msgDoc).

(** [socket.on("message:send", ...)]: the listener takes the payload
    only. *)
Definition on_message_send (sid : string) (payload : SendPayload) : M unit :=
  try_catch
    (let* msgDoc := insert_doc (λ d, Store.create d (fields_of payload)) in
     let* _ := emit_to_rooms sid payload msgDoc in
     sendNotification "new-message"
       (to_string (p_senderName payload) +:+ " sent a message")
       [("roomId", JS.or_default (p_roomId payload) "global");
        ("senderName", to_string (p_senderName payload))])
    (λ err, log "message:send error" err).

(** [socket.on("private_message", ...)]. *)
Definition on_private_message (sid : string) (p : PrivatePayload) : M unit :=
  try_catch
    (let room := privateRoomKey (pm_senderId p) (pm_toUserId p) in
     let* msgDoc :=
       insert_doc (λ d, Store.create d
         {| f_roomId := room;
            f_senderId := Some (pm_senderId p);
            f_senderName := pm_senderName p;
            f_recipients := [pm_toUserId p];
            f_content := pm_content p;
            f_attachments := JS.or_empty (pm_attachments p) |}) in
     let* _ := modify (λ s, with_rooms s (Rooms.join (rooms s) room sid)) in
     let* _ := modify (λ s, with_rooms s
                 (Rooms.socketsJoin (rooms s) (user_room (pm_toUserId p)) room)) in
     let* _ := emit (ToRoom room) "message:new" (BMessage msgDoc) in
     (* Notify recipient *)
     sendNotification "private-message"
       ("New message from " +:+ to_string (pm_senderName p))
       [("from", to_string (pm_senderName p)); ("toUserId", pm_toUserId p)])
    (λ err, log "private_message error" err).

(** [socket.on("message:read", ...)]. *)
Definition on_message_read (sid : string) (p : Receipt) : M unit :=
  try_catch
    (if String.eqb (messageId p) "" || String.eqb (userId p) "" then ret tt
     else
       let* found := query (λ d, Store.findById d (messageId p)) in
       match found with
       | None => ret tt
       | Some msg =>
           let* _ :=
             if negb (bool_decide (userId p ∈ readBy msg)) then
               update (λ d, Store.save d (set_readBy msg (readBy msg ++ [userId p])))
             else ret tt in
           let room := if String.eqb (roomId msg) "" then "global" else roomId msg in
           emit (ToRoom room) "message:read"
             (BReceipt {| messageId := messageId p; userId := userId p |})
       end)
    (λ err, log "message:read error" err).

(** [socket.on("message:react", ...)]. *)
Definition on_message_react (sid : string) (p : ReactPayload) : M unit :=
  try_catch
    (let* found := query (λ d, Store.findById d (r_messageId p)) in
     match found with
     | None => ret tt
     | Some msg =>
         let rs := Reactions.toggle (reactions msg) (r_emoji p) (r_userId p) in
         let* _ := update (λ d, Store.save_reactions d (set_reactions msg rs)) in
         emit ToAll "message:reaction" (BReaction (r_messageId p) rs)
     end)
    (λ err, log "message:react error" err).

(** [socket.on("typing:start", ...)] and [socket.on("typing:stop", ...)]. *)
Definition on_typing_start (sid : string) (p : TypingPayload) : M unit :=
  emit (ToRoomExcept (JS.or_default (t_roomId p) "global") sid)
    "typing:start" (BTyping (t_user p)).

Definition on_typing_stop (sid : string) (p : TypingPayload) : M unit :=
  emit (ToRoomExcept (JS.or_default (t_roomId p) "global") sid)
    "typing:stop" (BTyping (t_user p)).

(** [socket.on("message:delivered", ...)]: [deliveredBy] is a key of the
    [Mixed] path [meta]; the user is pushed onto the array of the loaded
    document in place. *)
Definition on_message_delivered (sid : string) (p : Receipt) : M unit :=
  try_catch
    (let* found := query (λ d, Store.findById d (messageId p)) in
     match found with
     | None => ret tt
     | Some msg =>
         let* _ :=
           if negb (bool_decide (userId p ∈ deliveredBy msg)) then
             update (λ d, Store.save_untracked d
                       (set_deliveredBy msg (deliveredBy msg ++ [userId p])))
           else ret tt in
         emit ToAll "message:delivered"
           (BReceipt {| messageId := messageId p; userId := userId p |})
     end)
    (λ err, log "message:delivered error" err).

(** [socket.on("disconnect", ...)]; a failing [save] is swallowed by
    [.catch(() => {})]. *)
Definition on_disconnect (sid : string) : M unit :=
  let* s := get_state in
  let user := JSMap.get sid (onlineUsers s) in
  let* _ := modify (λ s, with_onlineUsers s (JSMap.delete sid (onlineUsers s))) in
  let* _ :=
    match user with
    | Some u =>
        try_catch (update (λ d, Accounts.save d (set_offline u))) (λ _, ret tt)
    | None => ret tt
    end in
  let* _ := broadcastOnlineUsers in
  sendNotification "user-leave"
    (JS.or_default (username <$> user) "A user" +:+ " left the chat") [].

End SocketHandler.

(** ** server/server.js: the [/chat] namespace *)

Module ChatNamespace.

(** [socket.on("send_message", async (payload, callback) => ...)];
    [callback] tells whether the client supplied an acknowledgement
    function ([typeof callback === "function"]). *)
(** The block "Emit to rooms / users (mirror the logic in socket
    handler)" of [send_message]; ["receive_message"] is the backward
    compatible event. *)
Definition emit_to_rooms (sid : string) (payload : SendPayload)
    (msgDoc : Message) : M unit :=
  if JS.startsWith (p_roomId payload) "private:" then
    let* _ := emit (ToRoom (default "" (p_roomId payload))) "message:new" (BMessage msgDoc) in
    emit (ToRoom (default "" (p_roomId payload))) "receive_message" (BMessage msgDoc)
  else if JS.has_length (p_recipients payload) then
    let* _ :=
      for_each (JS.or_empty (p_recipients payload))
        (λ recipientId,
           emit (ToRoom (user_room recipientId)) "message:new" (BMessage msgDoc)) in
    let* _ := emit (ToSocket sid) "message:new" (BMessage msgDoc) in
    emit (ToSocket sid) "receive_message" (BMessage msgDoc)
  else if JS.truthy (p_roomId payload)
          && negb (String.eqb (default "" (p_roomId payload)) "global") then
    let* _ := emit (ToRoom (default "" (p_roomId payload))) "message:new" (BMessage msgDoc) in
    emit (ToRoom (default "" (p_roomId payload))) "receive_message" (BMessage msgDoc)
  else
    let* _ := emit ToAll "message:new" (BMessage msgDoc) in
    emit ToAll "receive_message" (BMessage msgDoc).

Definition on_send_message (sid : string) (payload : SendPayload)
    (callback : bool) : M unit :=
  try_catch
    (let* msgDoc := insert_doc (λ d, Store.create d (SocketHandler.fields_of payload)) in
     let* _ := emit_to_rooms sid payload msgDoc in
     let* _ :=
       emit ToAll "notification"
         (BNotification "new-message"
            (to_string (p_senderName payload) +:+ " sent a message")
            [("roomId", JS.or_default (p_roomId payload) "global");
             ("senderName", to_string (p_senderName payload))]) in
     when callback (ack (AckDelivered msgDoc)))
    (λ err,
       let* _ := log "send_message error" err in
       when callback (ack (AckError err))).

(** [socket.on("message:delivered", (messageId) => ...)]: the argument is
    the whole payload of the event. *)
Definition on_message_delivered (sid : string) (p : Receipt) : M unit :=
  emit (ToOthers sid) "message:delivered:update" (BReceipt p).

End ChatNamespace.

(** ** Transport and dispatch *)

(** A new socket joins the room named by its own id. *)
Definition connect (sid : string) (s : Server) : Server :=
  {| db := db s; onlineUsers := onlineUsers s;
     rooms := Rooms.join (rooms s) sid sid;
     sockets := {[sid]} ∪ sockets s |}.

(** A closing socket leaves all its rooms before [disconnect] is fired. *)
Definition close (sid : string) (s : Server) : Server :=
  {| db := db s; onlineUsers := onlineUsers s;
     rooms := Rooms.purge (rooms s) sid;
     sockets := sockets s ∖ {[sid]} |}.

Inductive Event :=
| UserJoin (userData : option JoinPayload)
| RoomJoin (room : option string)
| RoomLeave (room : option string)
| MessageSend (payload : SendPayload)
| SendMessage (payload : SendPayload) (callback : bool)
| PrivateMessage (p : PrivatePayload)
| MessageRead (p : Receipt)
| MessageReact (p : ReactPayload)
| TypingStart (p : TypingPayload)
| TypingStop (p : TypingPayload)
| MessageDelivered (p : Receipt)
| Disconnect.

(** The listeners of an event on a socket of the [/chat] namespace.
    [socketHandler(chatNamespace)] registers its listeners first and
    [chatNamespace.on("connection", ...)] of server.js second. Both listen
    to ["message:delivered"]: the first listener is [async] and suspends at
    its first [await] before it emits anything, so the emit of the second
    listener comes first in the trace. No other event is taken while the
    handlers of an event run. *)
Definition dispatch (sid : string) (ev : Event) : M unit :=
  match ev with
  | UserJoin userData => SocketHandler.on_user_join sid userData
  | RoomJoin room => SocketHandler.on_room_join sid room
  | RoomLeave room => SocketHandler.on_room_leave sid room
  | MessageSend payload => SocketHandler.on_message_send sid payload
  | SendMessage payload callback => ChatNamespace.on_send_message sid payload callback
  | PrivateMessage p => SocketHandler.on_private_message sid p
  | MessageRead p => SocketHandler.on_message_read sid p
  | MessageReact p => SocketHandler.on_message_react sid p
  | TypingStart p => SocketHandler.on_typing_start sid p
  | TypingStop p => SocketHandler.on_typing_stop sid p
  | MessageDelivered p =>
      let* _ := ChatNamespace.on_message_delivered sid p in
      SocketHandler.on_message_delivered sid p
  | Disconnect =>
      let* _ := modify (close sid) in
      SocketHandler.on_disconnect sid
  end.

Definition step (s : Server) (sid : string) (ev : Event) : Server * list Effect :=
  run (dispatch sid ev) s.

(** A sequence of inbound events, each with the socket it arrived on. *)
Fixpoint steps (s : Server) (evs : list (string * Event)) : Server * list Effect :=
  match evs with
  | [] => (s, [])
  | (sid, ev) :: evs' =>
      let '(s1, t1) := step s sid ev in
      let '(s2, t2) := steps s1 evs' in
      (s2, t1 ++ t2)
  end.

(** ** server/controllers/messageController.js and
       server/routes/message.routes.js *)

Module MessageController.

Inductive Response :=
| Created (m : Message)              (* 201 { message } *)
| Reacted (rs : list Reaction)       (* 200 { message, reactions } *)
| BadRequest (message : string)      (* 400 *)
| NotFound (message : string)        (* 404 *)
| ServerError (message : string)     (* 500 *).

Definition status (r : Response) : nat :=
  match r with
  | Created _ => 201
  | Reacted _ => 200
  | BadRequest _ => 400
  | NotFound _ => 404
  | ServerError _ => 500
  end.

(** [exports.sendMessage]: the REST path of a send. *)
Definition sendMessage (d : Db) (body : SendPayload) : Db * Response :=
  if negb (JS.truthy (p_senderId body))
     || negb (JS.truthy (p_senderName body))
     || (negb (JS.truthy (p_content body))
         && negb (JS.has_length (p_attachments body)))
  then (d, BadRequest "Missing required message fields.")
  else
    match Store.create d
            {| f_roomId := JS.or_default (p_roomId body) "global";
               f_senderId := p_senderId body;
               f_senderName := p_senderName body;
               f_recipients := JS.or_empty (p_recipients body);
               f_content := p_content body;
               f_attachments := JS.or_empty (p_attachments body) |} with
    | inr (d', m) => (d', Created m)
    | inl _ => (d, ServerError "Server error while sending message.")
    end.

(** [exports.toggleReaction]. *)
Definition toggleReaction (d : Db) (body : ReactPayload) : Db * Response :=
  match Store.findById d (r_messageId body) with
  | inl _ => (d, ServerError "Server error while updating reaction.")
  | inr None => (d, NotFound "Message not found.")
  | inr (Some message) =>
      let rs := Reactions.toggle_pull (reactions message)
                  (r_emoji body) (r_userId body) in
      match Store.save_reactions d (set_reactions message rs) with
      | inl _ => (d, ServerError "Server error while updating reaction.")
      | inr d' => (d', Reacted rs)
      end
  end.

(** The replies that carry a text only:
    [res.status(code).json({ message })]. *)
Record Reply := {
  code : nat;
  text : string
}.

(** [Message.findByIdAndUpdate(id, { $addToSet: { readBy: userId } })]: the
    user is added unless present; a missing document is no error. *)
Definition addToSet_readBy (d : Db) (id u : string) : Error + Db :=
  match Store.guard d with
  | inl e => inl e
  | inr _ =>
      let ms :=
        match list_find (λ m, m_id m = id) (messages d) with
        | Some (i, m) =>
            if bool_decide (u ∈ readBy m) then messages d
            else <[i := set_readBy m (readBy m ++ [u])]> (messages d)
        | None => messages d
        end in
      inr {| messages := ms; accounts := accounts d; clock := clock d;
             writes := writes d; healthy := healthy d |}
  end.

(** [Message.findByIdAndDelete(id)]: a missing document is no error. *)
Definition findByIdAndDelete (d : Db) (id : string) : Error + Db :=
  match Store.guard d with
  | inl e => inl e
  | inr _ =>
      let ms :=
        match list_find (λ m, m_id m = id) (messages d) with
        | Some (i, _) => delete i (messages d)
        | None => messages d
        end in
      inr {| messages := ms; accounts := accounts d; clock := clock d;
             writes := writes d; healthy := healthy d |}
  end.

(** [exports.markAsRead]. *)
Definition markAsRead (d : Db) (body : Receipt) : Db * Reply :=
  match addToSet_readBy d (messageId body) (userId body) with
  | inr d' => (d', {| code := 200; text := "Message marked as read." |})
  | inl _ => (d, {| code := 500; text := "Server error while marking as read." |})
  end.

(** [exports.deleteMessage]. *)
Definition deleteMessage (d : Db) (id : string) : Db * Reply :=
  match findByIdAndDelete d id with
  | inr d' => (d', {| code := 200; text := "Message deleted successfully." |})
  | inl _ => (d, {| code := 500; text := "Server error while deleting message." |})
  end.

End MessageController.

Module MessageRoutes.

(** [router.get("/:roomId", ...)]: [limit] and [skip] are the parsed
    query parameters ([None] for [NaN]); [parseInt(..) || 20] also
    replaces [0]. The page is read newest-first and reversed. *)
Definition get_messages (d : Db) (r : string) (limit skip : option nat)
  : Error + list Message :=
  let limit' := match limit with Some (S n) => S n | _ => 20 end in
  let skip' := default 0 skip in
  match Store.find_desc_skip_limit d r skip' limit' with
  | inl e => inl e
  | inr ms => inr (reverse ms)
  end.

End MessageRoutes.

(** ** Reading a trace *)

(** The acknowledgement calls of a trace, in order. *)
Fixpoint acks (t : list Effect) : list AckArgs :=
  match t with
  | [] => []
  | Ack a :: t' => a :: acks t'
  | _ :: t' => acks t'
  end.

(** The emits of one event: target and reached sockets, in order. *)
Fixpoint emitted (event : string) (t : list Effect) : list (Target * gset string) :=
  match t with
  | [] => []
  | Emit tg reach ev _ :: t' =>
      if String.eqb ev event then (tg, reach) :: emitted event t'
      else emitted event t'
  | _ :: t' => emitted event t'
  end.

(** The sockets that receive an event at least once. *)
Definition audience (event : string) (t : list Effect) : gset string :=
  ⋃ (snd <$> emitted event t).

(** The history pushes of a trace. *)
Fixpoint histories (t : list Effect) : list (list Message) :=
  match t with
  | [] => []
  | Emit _ _ _ (BHistory h) :: t' => h :: histories t'
  | _ :: t' => histories t'
  end.

(** The error logs of a trace. *)
Fixpoint logged (t : list Effect) : list Error :=
  match t with
  | [] => []
  | Log _ e :: t' => e :: logged t'
  | _ :: t' => logged t'
  end.

(** ** Destination resolution as the specification words it *)

Module Spec.

(** The live connections of an identity: the connections that the
    presence registry binds to it. *)
Definition live_connections (s : Server) (id : string) : gset string :=
  list_to_set (fst <$> filter (λ kv, u_id kv.2 = id) (onlineUsers s)).

(** The members of the room of an identity, ["user:<id>"]. *)
Definition identity_room (s : Server) (id : string) : gset string :=
  Rooms.members (rooms s) (user_room id).

(** A room id that is given and is not the global room. *)
Definition named_room (room : option string) : option string :=
  match room with
  | Some r => if decide (r = "" ∨ r = "global") then None else Some r
  | None => None
  end.

(** The sockets a Send is delivered to, by priority, when [resolve] gives
    the connections of a named identity:
    1. a room id that begins with ["private:"]: the members of the room;
    2. else a non-empty recipient list: the connections of each named
       identity and the sender's own connection;
    3. else a room id that is given and not ["global"]: its members;
    4. else every connected socket. *)
Definition destinations_by (resolve : string → gset string) (s : Server)
    (sender : string) (payload : SendPayload) : gset string :=
  if JS.startsWith (p_roomId payload) "private:" then
    Rooms.members (rooms s) (default "" (p_roomId payload))
  else
    match p_recipients payload with
    | Some (id :: ids) =>
        ⋃ (resolve <$> (id :: ids)) ∪ {[sender]}
    | _ =>
        match named_room (p_roomId payload) with
        | Some r => Rooms.members (rooms s) r
        | None => sockets s
        end
    end.

(** The specification's fan-out: a named identity stands for its live
    connections. *)
Definition destinations (s : Server) : string → SendPayload → gset string :=
  destinations_by (live_connections s) s.

(** The amended fan-out: a named identity stands for the members of its
    room. *)
Definition room_destinations (s : Server) : string → SendPayload → gset string :=
  destinations_by (identity_room s) s.

End Spec.

(** ** Scenarios *)

Module Scenario.

(** Three connected sockets, nobody joined yet. *)
Definition lobby : Server :=
  connect "s3" (connect "s2" (connect "s1" empty_server)).

Definition join_as (name : string) : Event :=
  UserJoin (Some {| j_username := Some name; j_userId := None |}).

Definition text (room : option string) (body : string) : SendPayload :=
  {| p_roomId := room; p_senderId := Some "u1"; p_senderName := Some "alice";
     p_recipients := None; p_content := Some body; p_attachments := None |}.

(** The ids of two accounts, as the store writes them. *)
Definition alice_id : string := "665f1c2e8a4b3d0012ab34c1".
Definition bob_id : string := "665f1c2e8a4b3d0012ab34c2".

(** A send with empty content and an empty attachment list. *)
Definition blank : SendPayload :=
  {| p_roomId := Some "global"; p_senderId := Some alice_id;
     p_senderName := Some "alice"; p_recipients := None;
     p_content := Some ""; p_attachments := Some [] |}.

(** 120 messages sent to the global room, one after the other. *)
Definition busy : Server :=
  (steps lobby (replicate 120 ("s1", MessageSend (text (Some "global") "hi")))).1.

(** alice (u0) on s1, bob (u1) on s2, carol (u2) on s3. *)
Definition trio : Server :=
  (steps lobby [("s1", join_as "alice"); ("s2", join_as "bob");
                ("s3", join_as "carol")]).1.

Definition whisper : PrivatePayload :=
  {| pm_toUserId := "u1"; pm_content := Some "psst"; pm_senderId := "u0";
     pm_senderName := Some "alice"; pm_attachments := None |}.

(** alice joins from s1 and then again from s2. *)
Definition twice : Server :=
  (steps lobby [("s1", join_as "alice"); ("s2", join_as "alice")]).1.

Definition stamps (ms : list Message) : list nat := createdAt <$> ms.

(** One message (m0) in the global room. *)
Definition posted : Server :=
  (step lobby "s1" (MessageSend (text (Some "global") "hi"))).1.

Definition seen : Receipt := {| messageId := "m0"; userId := "u1" |}.

(** The store holds the accounts of alice and bob and one message of alice
    in the global room; three sockets are connected. *)
Definition registered : Server :=
  with_db lobby
    {| messages :=
         [{| m_id := "665f1c2e8a4b3d0012ab34d0"; roomId := "global";
             senderId := alice_id; senderName := "alice"; recipients := [];
             content := "welcome"; attachments := []; readBy := [];
             reactions := []; deliveredBy := []; createdAt := 0 |}];
       accounts :=
         [{| u_id := alice_id; username := "alice"; isOnline := false;
             socketId := None |};
          {| u_id := bob_id; username := "bob"; isOnline := false;
             socketId := None |}];
       clock := 1; writes := 0; healthy := true |}.

Definition join_by_id (id : string) : Event :=
  UserJoin (Some {| j_username := None; j_userId := Some id |}).

(** alice joined from s1 and bob from s2, each by id; s3 is connected and
    bound to nobody. *)
Definition signed_in : Server :=
  (steps registered [("s1", join_by_id alice_id); ("s2", join_by_id bob_id)]).1.

(** s3 then asks for the room of bob. *)
Definition tapped : Server :=
  (step signed_in "s3" (RoomJoin (Some (user_room bob_id)))).1.

(** A send of alice addressed to bob. *)
Definition direct : SendPayload :=
  {| p_roomId := None; p_senderId := Some alice_id; p_senderName := Some "alice";
     p_recipients := Some [bob_id]; p_content := Some "hello";
     p_attachments := None |}.

(** A send of alice to the global room, with blanks around the text. *)
Definition greeting : SendPayload :=
  {| p_roomId := None; p_senderId := Some alice_id; p_senderName := Some "alice";
     p_recipients := None; p_content := Some "  hi "; p_attachments := None |}.

(** A private message of alice to bob. *)
Definition aside : PrivatePayload :=
  {| pm_toUserId := bob_id; pm_content := Some "psst"; pm_senderId := alice_id;
     pm_senderName := Some "alice"; pm_attachments := None |}.

(** bob's reaction to the stored message. *)
Definition thumbs : ReactPayload :=
  {| r_messageId := "665f1c2e8a4b3d0012ab34d0"; r_emoji := "heart";
     r_userId := bob_id |}.

(** bob's receipt for the stored message. *)
Definition received : Receipt :=
  {| messageId := "665f1c2e8a4b3d0012ab34d0"; userId := bob_id |}.

End Scenario.

(** ** Toggling, abstractly *)

(** The three moves of a toggle: a new entry, a user added, the last user
    taken out again. Both [Reactions.toggle] and [Reactions.toggle_pull]
    make them. *)
Record toggles (tog : list Reaction → string → string → list Reaction) : Prop := {
  toggles_new : ∀ rs e u,
    Reactions.lookup rs e = None →
    tog rs e u = rs ++ [{| emoji := e; users := [u] |}];
  toggles_add : ∀ rs e u i r,
    Reactions.lookup rs e = Some (i, r) → u ∉ users r →
    tog rs e u = <[i := {| emoji := emoji r; users := users r ++ [u] |}]> rs;
  toggles_remove : ∀ rs e u i r base,
    Reactions.lookup rs e = Some (i, r) → users r = base ++ [u] → u ∉ base →
    tog rs e u = <[i := {| emoji := emoji r; users := base |}]> rs
}.

(** Where the entry of an emoji sits once it exists, and the users it held
    before the toggles began. *)
Definition entry_index (rs : list Reaction) (e : string) : nat :=
  match Reactions.lookup rs e with
  | Some (i, _) => i
  | None => List.length rs
  end.

Definition entry_users (rs : list Reaction) (e : string) : list string :=
  match Reactions.lookup rs e with
  | Some (_, r) => users r
  | None => []
  end.

Definition odd_user (n : nat) (u : string) : list string :=
  if Nat.odd n then [u] else [].

(** ** client/src/socket/socket.js: [sendMessage] of [useSocket] *)

Module Client.

(** What becomes of one [socket.timeout(10000).emit("send_message", ...)]:
    the event does not reach the server; the server handles it but its
    acknowledgement is not back within the delay; or the acknowledgement is
    back in time. *)
Inductive Fate := Lost | Late | InTime.

(** With [timeout] the first argument of the client's callback is the
    timeout error and the arguments of the server's acknowledgement follow
    it: [ack] is the first argument the server passed, [null] after
    [callback(null, {...})] and the error after [callback(err)]. *)
Definition first_arg (a : AckArgs) : option Error :=
  match a with
  | AckDelivered _ => None
  | AckError e => Some e
  end.

Inductive Report :=
| Failed                          (* callback({ status: "failed", error }) *)
| Passed (ack : option Error)     (* callback(ack) *).

Inductive Effect :=
| Emitted                         (* socket.timeout(10000).emit(...) *)
| ConsoleError                    (* console.error(...) *)
| Called (r : Report).

(** One attempt: the server's state after it and the [(err, ack)] the
    client's callback is called with ([None] stands for a timeout). *)
Definition attempt (f : Fate) (sid : string) (message : SendPayload)
    (s : Server) : Server * option AckArgs :=
  match f with
  | Lost => (s, None)
  | Late => ((step s sid (SendMessage message true)).1, None)
  | InTime =>
      ((step s sid (SendMessage message true)).1,
       head (acks (step s sid (SendMessage message true)).2))
  end.

(** [attemptSend(retries)]; [fate k] is the fate of the attempt number [k],
    [callback] tells whether the caller gave a callback. *)
Fixpoint attemptSend (fate : nat → Fate) (sid : string) (message : SendPayload)
    (callback : bool) (retries k : nat) (s : Server)
  : Server * list Effect :=
  match attempt (fate k) sid message s with
  | (s1, None) =>
      match retries with
      | S r =>
          let '(s2, t) := attemptSend fate sid message callback r (S k) s1 in
          (s2, Emitted :: ConsoleError :: t)
      | O =>
          (s1, Emitted :: ConsoleError :: ConsoleError
                 :: (if callback then [Called Failed] else []))
      end
  | (s1, Some a) =>
      (s1, Emitted :: (if callback then [Called (Passed (first_arg a))] else []))
  end.

(** [sendMessage(message, callback)]; [socket] tells whether the socket was
    initialised. *)
Definition sendMessage (socket : bool) (fate : nat → Fate) (sid : string)
    (message : SendPayload) (callback : bool) (s : Server)
  : Server * list Effect :=
  if negb socket then (s, if callback then [Called Failed] else [])
  else attemptSend fate sid message callback 2 0 s.

Fixpoint emits (t : list Effect) : nat :=
  match t with
  | [] => 0
  | Emitted :: t' => S (emits t')
  | _ :: t' => emits t'
  end.

Fixpoint calls (t : list Effect) : list Report :=
  match t with
  | [] => []
  | Called r :: t' => r :: calls t'
  | _ :: t' => calls t'
  end.

(** The attempts among the first [n] that reach the server. *)
Fixpoint served (fate : nat → Fate) (k n : nat) : nat :=
  match n with
  | O => 0
  | S n' => (match fate k with Lost => 0 | _ => 1 end) + served fate (S k) n'
  end.

End Client.

(** ** Invariants *)

(** An event that leaves the presence map, the room index and the set of
    connected sockets as they are. *)
Definition registries_kept (s s' : Server) : Prop :=
  onlineUsers s' = onlineUsers s ∧ rooms s' = rooms s ∧ sockets s' = sockets s.

(** What an event may do to a stored message: the fields written at its
    creation stay, [readBy] and [deliveredBy] are only extended. *)
Definition kept (m m' : Message) : Prop :=
  m_id m' = m_id m ∧ roomId m' = roomId m ∧ senderId m' = senderId m
  ∧ senderName m' = senderName m ∧ recipients m' = recipients m
  ∧ content m' = content m ∧ attachments m' = attachments m
  ∧ createdAt m' = createdAt m
  ∧ readBy m `prefix_of` readBy m'
  ∧ deliveredBy m `prefix_of` deliveredBy m'.

(** How the message collection moves in one event: not at all, by one
    appended document, or by one document replaced by a later version of
    itself. *)
Inductive grows : list Message → list Message → Prop :=
| grows_same ms : grows ms ms
| grows_add ms m : grows ms (ms ++ [m])
| grows_edit ms i m m' :
    ms !! i = Some m → kept m m' → grows ms (<[i := m']> ms).

(** How many emits of an event reach a socket. *)
Definition deliveries (event sid : string) (t : list Effect) : nat :=
  List.length (filter (λ tr, sid ∈ tr.2) (emitted event t)).

Definition oldest_first : relation Message := λ a b, (createdAt a ≤ createdAt b)%nat.
Definition newest_first : relation Message := λ a b, (createdAt b ≤ createdAt a)%nat.

(** A page of at most [n] messages of a room in ascending order of
    creation, read from the old end or from the new end of the room: every
    message of the room that is left out is no older, respectively no
    newer, than any message of the page. *)
Definition page_of (d : Db) (r : string) (n : nat) (h : list Message) : Prop :=
  (List.length h ≤ n)%nat
  ∧ StronglySorted oldest_first h
  ∧ (∀ m, m ∈ h → m ∈ messages d ∧ roomId m = r).

Definition oldest_page_of (d : Db) (r : string) (n : nat) (h : list Message) : Prop :=
  page_of d r n h
  ∧ (∀ m m', m ∈ h → m' ∈ messages d → roomId m' = r → m' ∉ h →
       (createdAt m ≤ createdAt m')%nat)
  ∧ ((List.length (Store.in_room d r) ≤ n)%nat →
     ∀ m, m ∈ messages d → roomId m = r → m ∈ h).

Definition newest_page_of (d : Db) (r : string) (n : nat) (h : list Message) : Prop :=
  page_of d r n h
  ∧ (∀ m m', m ∈ h → m' ∈ messages d → roomId m' = r → m' ∉ h →
       (createdAt m' ≤ createdAt m)%nat)
  ∧ ((List.length (Store.in_room d r) ≤ n)%nat →
     ∀ m, m ∈ messages d → roomId m = r → m ∈ h).

(** * Properties *)

(** ** Traces and the handler monad *)

Lemma acks_app t1 t2 : acks (t1 ++ t2) = acks t1 ++ acks t2.
Proof.
  induction t1 as [|e t1 IH]; simpl; [done|].
  destruct e; simpl; by rewrite IH.
Qed.

Lemma emitted_app ev t1 t2 : emitted ev (t1 ++ t2) = emitted ev t1 ++ emitted ev t2.
Proof.
  induction t1 as [|e t1 IH]; simpl; [done|].
  destruct e as [tg reach ev' b| |]; simpl; auto.
  destruct (String.eqb ev' ev); simpl; by rewrite IH.
Qed.

Lemma logged_app t1 t2 : logged (t1 ++ t2) = logged t1 ++ logged t2.
Proof.
  induction t1 as [|e t1 IH]; simpl; [done|].
  destruct e; simpl; by rewrite IH.
Qed.

Lemma receivers_with_db s d t : receivers (with_db s d) t = receivers s t.
Proof. by destruct t. Qed.

Lemma for_each_emit {A} (l : list A) (f : A → Target) ev b s :
  for_each l (λ x, emit (f x) ev b) s
  = (s, (λ x, Emit (f x) (receivers s (f x)) ev b) <$> l, inr tt).
Proof.
  induction l as [|x l IH]; simpl; [done|].
  unfold bind. simpl. by rewrite IH.
Qed.

Lemma private_key_cases a b :
  privateRoomKey a b
  = "private:" +:+ (if String.ltb b a then b +:+ ":" +:+ a else a +:+ ":" +:+ b).
Proof.
  unfold privateRoomKey. simpl. by destruct (String.ltb b a).
Qed.

Lemma string_compare_refl a : String.compare a a = Eq.
Proof.
  destruct (String.compare a a) eqn:Hc; [done| |];
    pose proof (String.compare_antisym a a) as Ha; rewrite Hc in Ha; done.
Qed.

(** C5. The private room key of (a, b) is the key of (b, a), for all ids
    and so for distinct ones: it is ["private:"] followed by the lesser id,
    a colon and the greater id, in the order of [Array.prototype.sort]. *)
Theorem private_room_key_symmetric (a b : string) :
  privateRoomKey a b = privateRoomKey b a
  ∧ ∃ lo hi, privateRoomKey a b = "private:" +:+ lo +:+ ":" +:+ hi
             ∧ String.leb lo hi = true
             ∧ ((lo = a ∧ hi = b) ∨ (lo = b ∧ hi = a)).
Proof.
  rewrite !private_key_cases. unfold String.ltb, String.leb.
  rewrite (String.compare_antisym b a).
  destruct (String.compare a b) eqn:Hc; simpl.
  - apply String.compare_eq_iff in Hc as ->. split; [done|].
    exists b, b. rewrite string_compare_refl. auto.
  - split; [done|]. exists a, b. rewrite Hc. auto.
  - split; [done|]. exists b, a.
    rewrite (String.compare_antisym b a), Hc. auto.
Qed.

(** ** Fan-out of a send *)

Lemma audience_app ev t1 t2 : audience ev (t1 ++ t2) = audience ev t1 ∪ audience ev t2.
Proof.
  unfold audience. rewrite emitted_app, fmap_app. apply leibniz_equiv.
  by rewrite union_list_app.
Qed.

Lemma audience_recipients s (l : list string) b :
  audience "message:new"
    ((λ x, Emit (ToRoom (user_room x)) (receivers s (ToRoom (user_room x)))
                 "message:new" b) <$> l)
  = ⋃ (Spec.identity_room s <$> l).
Proof.
  induction l as [|x l IH]; [done|].
  rewrite !fmap_cons.
  change (Emit ?tg ?r ?ev ?b' :: ?t) with ([Emit tg r ev b'] ++ t).
  rewrite audience_app. rewrite IH. unfold audience. simpl. set_solver.
Qed.

Lemma acks_recipients s (l : list string) ev b :
  acks ((λ x, Emit (ToRoom (user_room x)) (receivers s (ToRoom (user_room x))) ev b) <$> l) = [].
Proof. by induction l. Qed.

Lemma logged_recipients s (l : list string) ev b :
  logged ((λ x, Emit (ToRoom (user_room x)) (receivers s (ToRoom (user_room x))) ev b) <$> l) = [].
Proof. by induction l. Qed.

Lemma named_room_code (room : option string) :
  JS.truthy room && negb (String.eqb (default "" room) "global")
  = bool_decide (is_Some (Spec.named_room room)).
Proof.
  destruct room as [r|]; simpl; [|done].
  destruct (String.eqb_spec r ""), (String.eqb_spec r "global"); simpl;
    case_decide; try done; naive_solver.
Qed.

Lemma named_room_Some room r : Spec.named_room room = Some r → default "" room = r.
Proof.
  destruct room as [r'|]; simpl; [|done]. case_decide; naive_solver.
Qed.

Lemma socket_emit_to_rooms_run sid payload m s :
  ∃ t, SocketHandler.emit_to_rooms sid payload m s = (s, t, inr tt)
       ∧ acks t = [] ∧ logged t = []
       ∧ audience "message:new" t = Spec.room_destinations s sid payload.
Proof.
  unfold SocketHandler.emit_to_rooms, Spec.room_destinations, Spec.destinations_by.
  destruct (JS.startsWith (p_roomId payload) "private:").
  { eexists. split; [reflexivity|]. repeat split.
    unfold audience; simpl. set_solver. }
  destruct (p_recipients payload) as [[|id ids]|] eqn:Hrec;
    cbn [JS.has_length JS.or_empty].
  2:{ unfold bind.
      rewrite (for_each_emit _ (λ x, ToRoom (user_room x))). simpl.
      eexists. split; [reflexivity|].
      change (Emit (ToRoom (user_room id)) ?r "message:new" (BMessage m) :: ?t ++ ?u)
        with (((λ x, Emit (ToRoom (user_room x)) (receivers s (ToRoom (user_room x)))
                 "message:new" (BMessage m)) <$> (id :: ids)) ++ u).
      rewrite !acks_app, !logged_app, acks_recipients, logged_recipients.
      repeat split.
      rewrite !audience_app, audience_recipients.
      unfold audience; simpl. set_solver. }
  all: rewrite named_room_code;
    destruct (Spec.named_room (p_roomId payload)) as [r|] eqn:Hr; simpl.
  all: try (apply named_room_Some in Hr as ->).
  all: eexists; (split; [reflexivity|]); repeat split; unfold audience; simpl; set_solver.
Qed.

Lemma chat_emit_to_rooms_run sid payload m s :
  ∃ t, ChatNamespace.emit_to_rooms sid payload m s = (s, t, inr tt)
       ∧ acks t = [] ∧ logged t = []
       ∧ audience "message:new" t = Spec.room_destinations s sid payload.
Proof.
  unfold ChatNamespace.emit_to_rooms, Spec.room_destinations, Spec.destinations_by.
  destruct (JS.startsWith (p_roomId payload) "private:").
  { eexists. split; [reflexivity|]. repeat split.
    unfold audience; simpl. set_solver. }
  destruct (p_recipients payload) as [[|id ids]|] eqn:Hrec;
    cbn [JS.has_length JS.or_empty].
  2:{ unfold bind.
      rewrite (for_each_emit _ (λ x, ToRoom (user_room x))). simpl.
      eexists. split; [reflexivity|].
      change (Emit (ToRoom (user_room id)) ?r "message:new" (BMessage m) :: ?t ++ ?u)
        with (((λ x, Emit (ToRoom (user_room x)) (receivers s (ToRoom (user_room x)))
                 "message:new" (BMessage m)) <$> (id :: ids)) ++ u).
      rewrite !acks_app, !logged_app, acks_recipients, logged_recipients.
      repeat split.
      rewrite !audience_app, audience_recipients.
      unfold audience; simpl. set_solver. }
  all: rewrite named_room_code;
    destruct (Spec.named_room (p_roomId payload)) as [r|] eqn:Hr; simpl.
  all: try (apply named_room_Some in Hr as ->).
  all: eexists; (split; [reflexivity|]); repeat split; unfold audience; simpl; set_solver.
Qed.

Lemma create_persists d f d' m :
  Store.create d f = inr (d', m) → messages d' = messages d ++ [m].
Proof.
  unfold Store.create. destruct (Store.validate f); [done|].
  destruct (Store.guard d); [done|]. by intros [= <- <-].
Qed.

(** What [send_message] leaves behind, by the outcome of [Message.create]. *)
Lemma on_send_message_run sid payload cb s :
  match Store.create (db s) (SocketHandler.fields_of payload) with
  | inr (d', m) =>
      ∃ t n, run (ChatNamespace.on_send_message sid payload cb) s
             = (with_db s d',
                t ++ [Emit ToAll (sockets s) "notification" n]
                  ++ (if cb then [Ack (AckDelivered m)] else []))
             ∧ acks t = [] ∧ logged t = []
             ∧ audience "message:new" t = Spec.room_destinations s sid payload
  | inl e =>
      run (ChatNamespace.on_send_message sid payload cb) s
      = (s, Log "send_message error" e :: (if cb then [Ack (AckError e)] else []))
  end.
Proof.
  unfold run, ChatNamespace.on_send_message, try_catch, bind, insert_doc.
  destruct (Store.create (db s) (SocketHandler.fields_of payload))
    as [e|[d' m]] eqn:Hc.
  - by destruct cb.
  - destruct (chat_emit_to_rooms_run sid payload m (with_db s d'))
      as (t & -> & Ha & Hl & Hd).
    exists t. eexists. by destruct cb.
Qed.

Lemma on_message_send_run sid payload s :
  match Store.create (db s) (SocketHandler.fields_of payload) with
  | inr (d', m) =>
      ∃ t n, run (SocketHandler.on_message_send sid payload) s
             = (with_db s d', t ++ [Emit ToAll (sockets s) "notification" n])
             ∧ acks t = [] ∧ logged t = []
             ∧ audience "message:new" t = Spec.room_destinations s sid payload
  | inl e =>
      run (SocketHandler.on_message_send sid payload) s
      = (s, [Log "message:send error" e])
  end.
Proof.
  unfold run, SocketHandler.on_message_send, try_catch, bind, insert_doc,
    SocketHandler.sendNotification.
  destruct (Store.create (db s) (SocketHandler.fields_of payload))
    as [e|[d' m]] eqn:Hc; [done|].
  destruct (socket_emit_to_rooms_run sid payload m (with_db s d'))
    as (t & -> & Ha & Hl & Hd).
  exists t. by eexists.
Qed.

(** ** Claims *)

(** C1 (evaluation at the failing input). A [send_message] whose content is
    empty and whose attachment list is empty is stored and acknowledged as
    delivered; the same payload on [message:send] is stored as well; the
    REST controller [sendMessage] rejects it with status 400. *)
Theorem blank_send_is_persisted :
  (∃ m, messages (db (step Scenario.lobby "s1" (SendMessage Scenario.blank true)).1) = [m]
        ∧ content m = "" ∧ attachments m = []
        ∧ acks (step Scenario.lobby "s1" (SendMessage Scenario.blank true)).2
          = [AckDelivered m])
  ∧ List.length (messages (db (step Scenario.lobby "s1" (MessageSend Scenario.blank)).1)) = 1
  ∧ logged (step Scenario.lobby "s1" (MessageSend Scenario.blank)).2 = []
  ∧ MessageController.sendMessage (db Scenario.lobby) Scenario.blank
    = (db Scenario.lobby, MessageController.BadRequest "Missing required message fields.").
Proof.
  split; [eexists; vm_compute; repeat split; reflexivity|].
  vm_compute. by repeat split.
Qed.

(** C2 (counterexample). A valid [message:send] is stored and fanned out
    but its sender is never acknowledged. *)
Lemma message_send_is_not_acknowledged :
  List.length (messages (db (step Scenario.lobby "s1"
                          (MessageSend (Scenario.text (Some "global") "hi"))).1)) = 1
  ∧ List.length (acks (step Scenario.lobby "s1"
                    (MessageSend (Scenario.text (Some "global") "hi"))).2) ≠ 1.
Proof. vm_compute. split; [reflexivity|discriminate]. Qed.

(** C2 (amended). A [send_message] event that carries an acknowledgement
    callback has the callback invoked exactly once: with the stored message
    when [Message.create] succeeds, with the error when it fails (schema
    validation or storage), in which case nothing is stored. Without a
    callback, and on [message:send], no acknowledgement is made. *)
Theorem send_message_acknowledged_once (s : Server) (sid : string) (payload : SendPayload) :
  match Store.create (db s) (SocketHandler.fields_of payload) with
  | inr (d', m) =>
      acks (trace_of (ChatNamespace.on_send_message sid payload true) s)
      = [AckDelivered m]
      ∧ messages (db (state_after (ChatNamespace.on_send_message sid payload true) s))
        = messages (db s) ++ [m]
  | inl e =>
      acks (trace_of (ChatNamespace.on_send_message sid payload true) s)
      = [AckError e]
      ∧ state_after (ChatNamespace.on_send_message sid payload true) s = s
  end
  ∧ acks (trace_of (ChatNamespace.on_send_message sid payload false) s) = []
  ∧ acks (trace_of (SocketHandler.on_message_send sid payload) s) = [].
Proof.
  unfold trace_of, state_after.
  pose proof (on_send_message_run sid payload true s) as Ht.
  pose proof (on_send_message_run sid payload false s) as Hf.
  pose proof (on_message_send_run sid payload s) as Hs.
  destruct (Store.create (db s) (SocketHandler.fields_of payload))
    as [e|[d' m]] eqn:Hc.
  - rewrite Ht, Hf, Hs. done.
  - destruct Ht as (t1 & n1 & -> & Ha1 & _).
    destruct Hf as (t2 & n2 & -> & Ha2 & _).
    destruct Hs as (t3 & n3 & -> & Ha3 & _).
    simpl. rewrite !acks_app, Ha1, Ha2, Ha3. simpl.
    by rewrite (create_persists _ _ _ _ Hc).
Qed.

(** C4 (counterexample). alice is online on s1 and bob on s2; s3, bound to
    no identity, has asked to join the room of bob's identity. A send of
    alice addressed to bob then reaches s3 as well, on both send events,
    while bob's only live connection is s2 and the specification's
    destinations are s1 and s2. *)
Lemma direct_send_reaches_room_joiner :
  Spec.live_connections Scenario.tapped Scenario.bob_id = {["s2"]}
  ∧ "s3" ∈ audience "message:new"
             (step Scenario.tapped "s1" (MessageSend Scenario.direct)).2
  ∧ "s3" ∈ audience "message:new"
             (step Scenario.tapped "s1" (SendMessage Scenario.direct true)).2
  ∧ ("s3" ∉ Spec.destinations Scenario.tapped "s1" Scenario.direct)
  ∧ Spec.destinations Scenario.tapped "s1" Scenario.direct = {["s1"; "s2"]}.
Proof.
  split; [by vm_compute|].
  split; [by apply (bool_decide_unpack _); vm_compute|].
  split; [by apply (bool_decide_unpack _); vm_compute|].
  split; [by apply (bool_decide_unpack _); vm_compute|].
  by vm_compute.
Qed.

(** C4 (amended). On both send events, once the message is stored, the
    sockets that receive ["message:new"] are given by the priority order
    in which a named identity stands for the members of its room
    ["user:<id>"], and nothing is logged (a recipient whose room is empty is
    skipped silently). These are the destinations of the specification when
    the room of every recipient holds its live connections and no other
    socket. *)
Theorem send_fan_out_priority (s : Server) (sid : string) (payload : SendPayload)
    (cb : bool) (d' : Db) (m : Message) :
  Store.create (db s) (SocketHandler.fields_of payload) = inr (d', m) →
  audience "message:new" (trace_of (SocketHandler.on_message_send sid payload) s)
  = Spec.room_destinations s sid payload
  ∧ audience "message:new" (trace_of (ChatNamespace.on_send_message sid payload cb) s)
    = Spec.room_destinations s sid payload
  ∧ logged (trace_of (SocketHandler.on_message_send sid payload) s) = []
  ∧ logged (trace_of (ChatNamespace.on_send_message sid payload cb) s) = []
  ∧ ((∀ id, id ∈ JS.or_empty (p_recipients payload) →
        Spec.identity_room s id = Spec.live_connections s id) →
     Spec.room_destinations s sid payload = Spec.destinations s sid payload).
Proof.
  intros Hc. unfold trace_of.
  pose proof (on_send_message_run sid payload cb s) as Hn.
  pose proof (on_message_send_run sid payload s) as Hs.
  rewrite Hc in Hn, Hs.
  destruct Hn as (t1 & n1 & -> & _ & Hl1 & Hd1).
  destruct Hs as (t2 & n2 & -> & _ & Hl2 & Hd2).
  simpl. rewrite !audience_app, !logged_app, Hl1, Hl2, Hd1, Hd2.
  repeat split.
  - unfold audience. simpl. set_solver.
  - destruct cb; unfold audience; simpl; set_solver.
  - by destruct cb.
  - intros Hrooms.
    unfold Spec.room_destinations, Spec.destinations, Spec.destinations_by.
    destruct (JS.startsWith (p_roomId payload) "private:"); [done|].
    destruct (p_recipients payload) as [[|id ids]|]; try done.
    f_equal. f_equal. apply Forall_fmap_ext, Forall_forall. exact Hrooms.
Qed.

(** C3 (evaluation at the failing input). With 120 messages in the global
    room (creation stamps 0 to 119), the history pushed on [user:join] and on
    [room:join] holds the stamps 0 to 99: the oldest hundred, the newest
    twenty left out. The paginated REST route, asked for 100, returns the
    stamps 20 to 119. *)
Theorem join_history_keeps_the_oldest :
  Scenario.stamps (messages (db Scenario.busy)) = seq 0 120
  ∧ Scenario.stamps <$> histories (step Scenario.busy "s2" (Scenario.join_as "bob")).2
    = [seq 0 100]
  ∧ Scenario.stamps <$> histories (step Scenario.busy "s2" (RoomJoin (Some "global"))).2
    = [seq 0 100]
  ∧ MessageRoutes.get_messages (db Scenario.busy) "global" (Some 100) None
    = inr (drop 20 (messages (db Scenario.busy))).
Proof. vm_compute. by repeat split. Qed.

(** C9 (evaluation at the failing input). alice, bob and carol are online;
    alice sends bob a private message. The message reaches the sockets of
    alice and bob only, but the notification is emitted with [io.emit] and
    reaches carol's socket as well. *)
Theorem private_notification_is_broadcast :
  (fst <$> emitted "notification"
             (step Scenario.trio "s1" (PrivateMessage Scenario.whisper)).2) = [ToAll]
  ∧ "s3" ∈ audience "notification"
             (step Scenario.trio "s1" (PrivateMessage Scenario.whisper)).2
  ∧ ("s3" ∉ audience "message:new"
              (step Scenario.trio "s1" (PrivateMessage Scenario.whisper)).2)
  ∧ "s1" ∈ audience "message:new"
             (step Scenario.trio "s1" (PrivateMessage Scenario.whisper)).2
  ∧ "s2" ∈ audience "message:new"
             (step Scenario.trio "s1" (PrivateMessage Scenario.whisper)).2.
Proof.
  split; [by vm_compute|].
  split; [by apply (bool_decide_unpack _); vm_compute|].
  split; [by apply (bool_decide_unpack _); vm_compute|].
  split; by apply (bool_decide_unpack _); vm_compute.
Qed.

(** ** The store: finding and saving a document *)

Lemma list_find_insert {A} (P : A → Prop) `{∀ x, Decision (P x)}
    (l : list A) i x y :
  list_find P l = Some (i, x) → P y → list_find P (<[i:=y]> l) = Some (i, y).
Proof.
  intros (Hi & HP & Hlt)%list_find_Some Hy. apply list_find_Some.
  split; [|split; [done|]].
  - apply list_lookup_insert_eq. by eapply lookup_lt_Some.
  - intros j z Hj Hji. rewrite list_lookup_insert_ne in Hj by lia. eauto.
Qed.

Lemma findById_healthy d id r : Store.findById d id = inr r → healthy d = true.
Proof. unfold Store.findById, Store.guard. by destruct (healthy d). Qed.

Lemma findById_id d id m : Store.findById d id = inr (Some m) → m_id m = id.
Proof.
  unfold Store.findById. destruct (Store.guard d); [done|].
  destruct (list_find _ _) as [[i x]|] eqn:Hf; [|done].
  apply list_find_Some in Hf as (_ & Hid & _). by intros [= <-].
Qed.

(** Saving a document under the id it was found with replaces it at its
    place; the next [findById] returns the saved document. *)
Lemma save_found d id m m' :
  Store.findById d id = inr (Some m) → m_id m' = id →
  ∃ d', Store.save d m' = inr d'
        ∧ Store.findById d' id = inr (Some m')
        ∧ writes d' = S (writes d)
        ∧ List.length (messages d') = List.length (messages d).
Proof.
  intros Hfind Hid. pose proof (findById_healthy _ _ _ Hfind) as Hh.
  unfold Store.findById, Store.save, Store.guard in *. rewrite Hh in *.
  destruct (list_find (λ x, m_id x = id) (messages d)) as [[i x]|] eqn:Hf;
    [|done].
  rewrite Hid, Hf. eexists. split; [reflexivity|]. simpl.
  rewrite (list_find_insert _ _ i x m' Hf Hid), length_insert. done.
Qed.

(** What the two listeners of ["message:delivered"] leave behind: the
    listener of server.js emits first; the one of the socket handler emits
    when the message is found; the server state is as it was. *)
Lemma message_delivered_step (s : Server) (sid : string) (p : Receipt) :
  step s sid (MessageDelivered p)
  = (s, Emit (ToOthers sid) (sockets s ∖ {[sid]}) "message:delivered:update" (BReceipt p)
        :: match Store.findById (db s) (messageId p) with
           | inr (Some _) => [Emit ToAll (sockets s) "message:delivered" (BReceipt p)]
           | inr None => []
           | inl e => [Log "message:delivered error" e]
           end).
Proof.
  unfold step, run, dispatch, ChatNamespace.on_message_delivered,
    SocketHandler.on_message_delivered, try_catch, bind, emit, query.
  destruct p as [mid uid]. simpl.
  destruct (Store.findById (db s) mid) as [e|[m|]] eqn:Hfind; simpl; try done.
  pose proof (findById_healthy _ _ _ Hfind) as Hh.
  destruct (bool_decide (uid ∈ deliveredBy m)); simpl; [done|].
  unfold update, Store.save_untracked, Store.guard. rewrite Hh. simpl.
  by destruct s.
Qed.

(** C10 (evaluation at the failing input). bob, on s2, acknowledges the
    delivery of the stored message. Both listeners run: the payload goes
    out as ["message:delivered:update"] to the other sockets and then as
    ["message:delivered"] to all sockets. The delivery mark is not
    persisted: the store is as it was, and the stored message still has an
    empty [deliveredBy]. *)
Theorem delivered_mark_is_not_persisted :
  (step Scenario.signed_in "s2" (MessageDelivered Scenario.received)).2
  = [Emit (ToOthers "s2") (sockets Scenario.signed_in ∖ {["s2"]})
       "message:delivered:update" (BReceipt Scenario.received);
     Emit ToAll (sockets Scenario.signed_in)
       "message:delivered" (BReceipt Scenario.received)]
  ∧ db (step Scenario.signed_in "s2" (MessageDelivered Scenario.received)).1
    = db Scenario.signed_in
  ∧ ∃ m, Store.findById
           (db (step Scenario.signed_in "s2" (MessageDelivered Scenario.received)).1)
           (messageId Scenario.received) = inr (Some m)
         ∧ deliveredBy m = []
         ∧ userId Scenario.received ∉ deliveredBy m.
Proof.
  rewrite message_delivered_step.
  split; [by vm_compute|]. split; [done|].
  eexists. split; [by vm_compute|]. split; [done|]. simpl. set_solver.
Qed.


(** ** Reaction toggles *)

Lemma find_user_absent (u : string) (us : list string) :
  u ∉ us → list_find (λ x, x = u) us = None.
Proof.
  intros Hu. apply list_find_None, Forall_forall. by intros x Hx ->.
Qed.

Lemma find_user_last (u : string) (base : list string) :
  u ∉ base → list_find (λ x, x = u) (base ++ [u]) = Some (List.length base, u).
Proof.
  intros Hu. apply list_find_Some. split; [|split; [done|]].
  - by rewrite list_lookup_middle.
  - intros j y Hj Hlt ->. rewrite lookup_app_l in Hj by done.
    apply Hu. by eapply list_elem_of_lookup_2.
Qed.

Lemma filter_out_last (u : string) (base : list string) :
  u ∉ base → filter (λ x, x ≠ u) (base ++ [u]) = base.
Proof.
  intros Hu. rewrite filter_app, filter_cons_False, filter_nil, app_nil_r by naive_solver.
  induction base as [|x base IH]; [done|].
  apply not_elem_of_cons in Hu as [Hx Hb].
  rewrite filter_cons_True by done. by rewrite IH.
Qed.

Lemma lookup_new_entry rs e u :
  Reactions.lookup rs e = None →
  Reactions.lookup (rs ++ [{| emoji := e; users := [u] |}]) e
  = Some (List.length rs, {| emoji := e; users := [u] |}).
Proof.
  unfold Reactions.lookup. intros Hn. rewrite list_find_app_r by done.
  simpl. by rewrite decide_True.
Qed.

Lemma lookup_emoji rs e i r : Reactions.lookup rs e = Some (i, r) → emoji r = e.
Proof. by intros (_ & He & _)%list_find_Some. Qed.

Lemma toggle_toggles : toggles Reactions.toggle.
Proof.
  split; unfold Reactions.toggle.
  - by intros rs e u ->.
  - intros rs e u i r -> Hu. by rewrite find_user_absent.
  - intros rs e u i r base -> Hus Hu.
    rewrite Hus, find_user_last by done. by rewrite delete_middle, app_nil_r.
Qed.

Lemma toggle_pull_toggles : toggles Reactions.toggle_pull.
Proof.
  split; unfold Reactions.toggle_pull.
  - by intros rs e u ->.
  - intros rs e u i r -> Hu. by rewrite bool_decide_eq_false_2.
  - intros rs e u i r base -> Hus Hu.
    rewrite Hus, bool_decide_eq_true_2 by set_solver.
    by rewrite filter_out_last.
Qed.

(** A reactions list passes validation when every entry has an emoji. *)
Lemma validate_reactions_ok m :
  Forall (λ r, emoji r ≠ "") (reactions m) → Store.validate_reactions m = inr tt.
Proof.
  unfold Store.validate_reactions.
  induction 1 as [|r rs Hr _ IH]; simpl; [done|].
  by destruct (String.eqb_spec (emoji r) "").
Qed.

Lemma validate_reactions_fails m :
  Exists (λ r, emoji r = "") (reactions m) →
  Store.validate_reactions m = inl (ValidationError "reactions.emoji").
Proof.
  unfold Store.validate_reactions.
  induction 1 as [r rs Hr|r rs _ IH]; simpl.
  - by rewrite Hr.
  - destruct (forallb _ rs); [done|]. by rewrite andb_false_r.
Qed.

Lemma toggle_keeps_emoji rs e u :
  e ≠ "" → Forall (λ r, emoji r ≠ "") rs →
  Forall (λ r, emoji r ≠ "") (Reactions.toggle rs e u).
Proof.
  intros He Hrs. unfold Reactions.toggle.
  destruct (Reactions.lookup rs e) as [[i r]|] eqn:Hl.
  - apply Forall_insert; [done|]. simpl. apply lookup_emoji in Hl. by rewrite Hl.
  - apply Forall_app. split; [done|]. by apply Forall_singleton.
Qed.

Lemma toggle_pull_keeps_emoji rs e u :
  e ≠ "" → Forall (λ r, emoji r ≠ "") rs →
  Forall (λ r, emoji r ≠ "") (Reactions.toggle_pull rs e u).
Proof.
  intros He Hrs. unfold Reactions.toggle_pull.
  destruct (Reactions.lookup rs e) as [[i r]|] eqn:Hl.
  - apply Forall_insert; [done|]. simpl. apply lookup_emoji in Hl. by rewrite Hl.
  - apply Forall_app. split; [done|]. by apply Forall_singleton.
Qed.

Section Parity.
Context {St : Type} (dbof : St → Db) (next : St → St).
Context (tog : list Reaction → string → string → list Reaction).
Context (mid e u : string).
Hypothesis tog_ok : toggles tog.
Hypothesis tog_valid : ∀ rs,
  Forall (λ r, emoji r ≠ "") rs → Forall (λ r, emoji r ≠ "") (tog rs e u).
Hypothesis next_spec : ∀ s m,
  Store.findById (dbof s) mid = inr (Some m) →
  Forall (λ r, emoji r ≠ "") (reactions m) →
  Store.findById (dbof (next s)) mid
  = inr (Some (set_reactions m (tog (reactions m) e u))).

Lemma first_toggle rs :
  Reactions.reacted rs e u = false →
  Reactions.lookup (tog rs e u) e
  = Some (entry_index rs e, {| emoji := e; users := entry_users rs e ++ [u] |}).
Proof.
  unfold Reactions.reacted, entry_index, entry_users.
  destruct (Reactions.lookup rs e) as [[i r]|] eqn:Hl; intros Hr.
  - apply bool_decide_eq_false in Hr.
    rewrite (toggles_add _ tog_ok _ _ _ _ _ Hl Hr).
    pose proof (lookup_emoji _ _ _ _ Hl) as He. rewrite He.
    by apply (list_find_insert _ _ _ _ _ Hl).
  - rewrite (toggles_new _ tog_ok _ _ _ Hl). by apply lookup_new_entry.
Qed.

Lemma later_toggle rs i base n :
  u ∉ base →
  Reactions.lookup rs e = Some (i, {| emoji := e; users := base ++ odd_user n u |}) →
  Reactions.lookup (tog rs e u) e
  = Some (i, {| emoji := e; users := base ++ odd_user (S n) u |}).
Proof.
  intros Hu Hl. unfold odd_user in *. rewrite Nat.odd_succ, <-Nat.negb_odd.
  destruct (Nat.odd n); simpl in *.
  - rewrite (toggles_remove _ tog_ok _ _ _ _ _ base Hl eq_refl Hu). simpl.
    rewrite app_nil_r. by apply (list_find_insert _ _ _ _ _ Hl).
  - rewrite app_nil_r in Hl.
    rewrite (toggles_add _ tog_ok _ _ _ _ _ Hl Hu). simpl.
    by apply (list_find_insert _ _ _ _ _ Hl).
Qed.

Lemma toggles_parity s m n :
  Store.findById (dbof s) mid = inr (Some m) →
  Forall (λ r, emoji r ≠ "") (reactions m) →
  Reactions.reacted (reactions m) e u = false →
  ∃ m', Store.findById (dbof (Nat.iter n next s)) mid = inr (Some m')
        ∧ Forall (λ r, emoji r ≠ "") (reactions m')
        ∧ Reactions.reacted (reactions m') e u = Nat.odd n
        ∧ (0 < n →
           Reactions.lookup (reactions m') e
           = Some (entry_index (reactions m) e,
                   {| emoji := e;
                      users := entry_users (reactions m) e ++ odd_user n u |})).
Proof.
  intros Hfind Hvalid Habs.
  assert (u ∉ entry_users (reactions m) e) as Hbase.
  { unfold Reactions.reacted, entry_users in *.
    destruct (Reactions.lookup (reactions m) e) as [[i r]|]; [|set_solver].
    by apply bool_decide_eq_false in Habs. }
  induction n as [|n (m' & Hf' & Hv' & Hr' & Hl')].
  - exists m. split; [done|]. split; [done|]. split; [done|]. lia.
  - assert (Reactions.lookup (tog (reactions m') e u) e
            = Some (entry_index (reactions m) e,
                    {| emoji := e;
                       users := entry_users (reactions m) e ++ odd_user (S n) u |}))
      as Hl.
    { destruct n as [|n].
      - simpl in Hf'. rewrite Hfind in Hf'. injection Hf' as <-.
        by apply first_toggle.
      - apply later_toggle; [done|]. apply Hl'. lia. }
    apply next_spec in Hf'; [|done]. simpl. eexists. split; [exact Hf'|]. simpl.
    split; [by apply tog_valid|]. split; [|done].
    unfold Reactions.reacted. rewrite Hl. unfold odd_user.
    destruct (Nat.odd (S n)); simpl.
    + apply bool_decide_eq_true_2. set_solver.
    + rewrite app_nil_r. by apply bool_decide_eq_false_2.
Qed.
End Parity.

Lemma on_message_react_next sid p s m :
  r_emoji p ≠ "" →
  Store.findById (db s) (r_messageId p) = inr (Some m) →
  Forall (λ r, emoji r ≠ "") (reactions m) →
  Store.findById (db (state_after (SocketHandler.on_message_react sid p) s))
    (r_messageId p)
  = inr (Some (set_reactions m
                 (Reactions.toggle (reactions m) (r_emoji p) (r_userId p)))).
Proof.
  intros He Hfind Hvalid.
  unfold state_after, run, SocketHandler.on_message_react, try_catch, bind,
    query, update, emit, Store.save_reactions.
  rewrite Hfind, validate_reactions_ok by by apply toggle_keeps_emoji.
  destruct (save_found (db s) (r_messageId p) m
              (set_reactions m (Reactions.toggle (reactions m) (r_emoji p) (r_userId p)))
              Hfind) as (d' & -> & Hfind' & _); [by apply findById_id in Hfind|].
  done.
Qed.

Lemma toggleReaction_next p d m :
  r_emoji p ≠ "" →
  Store.findById d (r_messageId p) = inr (Some m) →
  Forall (λ r, emoji r ≠ "") (reactions m) →
  Store.findById (MessageController.toggleReaction d p).1 (r_messageId p)
  = inr (Some (set_reactions m
                 (Reactions.toggle_pull (reactions m) (r_emoji p) (r_userId p)))).
Proof.
  intros He Hfind Hvalid.
  unfold MessageController.toggleReaction, Store.save_reactions. rewrite Hfind.
  rewrite validate_reactions_ok by by apply toggle_pull_keeps_emoji.
  destruct (save_found d (r_messageId p) m
              (set_reactions m (Reactions.toggle_pull (reactions m) (r_emoji p) (r_userId p)))
              Hfind) as (d' & -> & Hfind' & _); [by apply findById_id in Hfind|].
  done.
Qed.


(** ** Presence *)

Lemma JSMap_get_set_ne {V} (k k' : string) (v : V) m :
  k' ≠ k → JSMap.get k' (JSMap.set k v m) = JSMap.get k' m.
Proof.
  intros Hne. induction m as [|[k0 v0] m IH]; simpl.
  - by rewrite (proj2 (String.eqb_neq k k')).
  - destruct (String.eqb_spec k0 k) as [->|]; simpl.
    + by rewrite (proj2 (String.eqb_neq k k')).
    + by rewrite IH.
Qed.

Lemma JSMap_get_set_eq {V} (k : string) (v : V) m :
  JSMap.get k (JSMap.set k v m) = Some v.
Proof.
  induction m as [|[k0 v0] m IH]; simpl.
  - by rewrite String.eqb_refl.
  - destruct (String.eqb_spec k0 k) as [->|Hne]; simpl.
    + by rewrite String.eqb_refl.
    + by rewrite (proj2 (String.eqb_neq k0 k)).
Qed.

Lemma JSMap_keys_set {V} (k : string) (v : V) m :
  fst <$> JSMap.set k v m
  = (fst <$> m) ++ (if bool_decide (k ∈ fst <$> m) then [] else [k]).
Proof.
  induction m as [|[k0 v0] m IH]; [done|]. cbn [JSMap.set].
  destruct (String.eqb_spec k0 k) as [->|Hne]; rewrite !fmap_cons; cbn [fst].
  - rewrite bool_decide_eq_true_2 by set_solver. by rewrite app_nil_r.
  - rewrite IH, <-app_comm_cons. f_equal. f_equal.
    rewrite (bool_decide_ext (k ∈ k0 :: m.*1) (k ∈ m.*1)); [done|set_solver].
Qed.

Lemma JSMap_set_NoDup {V} (k : string) (v : V) m :
  NoDup (fst <$> m) → NoDup (fst <$> JSMap.set k v m).
Proof.
  intros Hnd. rewrite JSMap_keys_set. case_bool_decide as Hk.
  - by rewrite app_nil_r.
  - apply NoDup_app. split; [done|]. split; [|apply NoDup_singleton].
    intros x Hx ->%list_elem_of_singleton. done.
Qed.

(** A join either leaves the presence map as it is (nobody resolved, or the
    store failed before the binding) or sets the entry of the joining
    socket; it never touches the set of connected sockets. *)
Lemma on_user_join_presence sid userData s :
  sockets (state_after (SocketHandler.on_user_join sid userData) s) = sockets s
  ∧ (onlineUsers (state_after (SocketHandler.on_user_join sid userData) s)
     = onlineUsers s
     ∨ ∃ u, onlineUsers (state_after (SocketHandler.on_user_join sid userData) s)
            = JSMap.set sid (SocketHandler.set_online u sid) (onlineUsers s)).
Proof.
  unfold state_after, run, SocketHandler.on_user_join, try_catch, bind, query,
    insert_doc, update, modify, SocketHandler.broadcastOnlineUsers, get_state,
    emit, SocketHandler.sendNotification, log, ret.
  repeat (case_match; simplify_eq/=); eauto.
Qed.

Lemma findOne_username d name u :
  Accounts.findOne d name = inr (Some u) → username u = name.
Proof.
  unfold Accounts.findOne. destruct (Store.guard d); [done|].
  destruct (list_find _ _) as [[i x]|] eqn:Hf; [|done].
  apply list_find_Some in Hf as (_ & Hn & _). by intros [= <-].
Qed.

(** A join by name on a healthy store binds the joining socket to a user of
    that name. *)
Lemma on_user_join_binds sid name s :
  healthy (db s) = true → name ≠ "" →
  ∃ u, JSMap.get sid
         (onlineUsers (state_after
            (SocketHandler.on_user_join sid
               (Some {| j_username := Some name; j_userId := None |})) s))
       = Some u
       ∧ username u = name ∧ isOnline u = true ∧ socketId u = Some sid.
Proof.
  intros Hh Hname.
  unfold state_after, run, SocketHandler.on_user_join, try_catch, bind, query,
    insert_doc, update, modify, SocketHandler.broadcastOnlineUsers, get_state,
    emit, SocketHandler.sendNotification, log, ret.
  simpl. rewrite (proj2 (String.eqb_neq name "") Hname). simpl.
  unfold Accounts.findOne, Accounts.create, Accounts.save,
    Store.find_asc_limit, Store.guard.
  rewrite Hh, (proj2 (String.eqb_neq name "") Hname). simpl.
  destruct (list_find (λ u, username u = name) (accounts (db s)))
    as [[i u]|] eqn:Hf; simpl; rewrite Hh; simpl; rewrite ?Hh; simpl.
  - apply list_find_Some in Hf as (_ & Hn & _).
    eexists. rewrite JSMap_get_set_eq. by repeat split.
  - eexists. rewrite JSMap_get_set_eq. by repeat split.
Qed.

(** The snapshot lists an identity once for every socket bound to it. *)
Lemma snapshot_count (s : Server) (id : string) :
  List.length (filter (λ o, o_id o = id) (SocketHandler.snapshot s))
  = List.length (filter (λ kv, u_id kv.2 = id) (onlineUsers s)).
Proof.
  unfold SocketHandler.snapshot, JSMap.values.
  induction (onlineUsers s) as [|[k u] l IH]; [done|].
  cbn [map snd]. rewrite !filter_cons. cbn [o_id snd].
  destruct (decide (u_id u = id)); cbn [List.length]; by rewrite IH.
Qed.


Lemma accounts_findById_id d id u :
  Accounts.findById d id = inr (Some u) → u_id u = id.
Proof.
  unfold Accounts.findById. destruct (Store.guard d); [done|].
  destruct (list_find _ _) as [[i x]|] eqn:Hf; [|done].
  apply list_find_Some in Hf as (_ & Hn & _). by intros [= <-].
Qed.

(** A join with the id of an account binds the joining socket to that
    account and puts it into the room of the account. *)
Lemma on_user_join_by_id sid userData id u s :
  userData ≫= j_userId = Some id → id ≠ "" →
  Accounts.findById (db s) id = inr (Some u) →
  JSMap.get sid
    (onlineUsers (state_after (SocketHandler.on_user_join sid userData) s))
  = Some (SocketHandler.set_online u sid)
  ∧ sid ∈ Rooms.members
            (rooms (state_after (SocketHandler.on_user_join sid userData) s))
            (user_room id).
Proof.
  intros Hid Hne Hfind.
  assert (healthy (db s) = true) as Hh.
  { unfold Accounts.findById, Store.guard in Hfind. by destruct (healthy (db s)). }
  pose proof (accounts_findById_id _ _ _ Hfind) as Hu.
  unfold state_after, run, SocketHandler.on_user_join, try_catch, bind, query,
    insert_doc, update, modify, SocketHandler.broadcastOnlineUsers, get_state,
    emit, SocketHandler.sendNotification, log, ret.
  rewrite Hid. simpl. rewrite (proj2 (String.eqb_neq id "") Hne). simpl.
  rewrite Hfind. simpl.
  unfold Accounts.save, Store.find_asc_limit, Store.guard.
  rewrite Hh. simpl. rewrite ?Hh. simpl.
  split; [by rewrite JSMap_get_set_eq|].
  unfold Rooms.members, Rooms.join. rewrite Hu, lookup_insert_eq. simpl. set_solver.
Qed.

(** A join with a name, and with no id or with an id that no account has,
    binds the joining socket to a user of that name. *)
Lemma on_user_join_by_name sid userData name s :
  healthy (db s) = true → userData ≫= j_username = Some name → name ≠ "" →
  JS.truthy (userData ≫= j_userId) = false
  ∨ Accounts.findById (db s) (default "" (userData ≫= j_userId)) = inr None →
  ∃ u, JSMap.get sid
         (onlineUsers (state_after (SocketHandler.on_user_join sid userData) s))
       = Some u
       ∧ username u = name ∧ isOnline u = true ∧ socketId u = Some sid.
Proof.
  intros Hh Hn Hname Hid.
  unfold state_after, run, SocketHandler.on_user_join, try_catch, bind, query,
    insert_doc, update, modify, SocketHandler.broadcastOnlineUsers, get_state,
    emit, SocketHandler.sendNotification, log, ret.
  rewrite Hn.
  assert (∀ (k : option User → M unit),
            (let '(s1, t1, r) :=
               (if JS.truthy (userData ≫= j_userId)
                then λ s0, match Accounts.findById (db s0)
                                   (default "" (userData ≫= j_userId)) with
                           | inl e => (s0, [], inl e)
                           | inr a => (s0, [], inr a)
                           end
                else λ s0, (s0, [], inr None)) s in
             match r with
             | inl e => (s1, t1, inl e)
             | inr a => let '(s2, t2, r2) := k a s1 in (s2, t1 ++ t2, r2)
             end) = k None s) as Hby.
  { intros k. destruct Hid as [->| Hnone].
    - by destruct (k None s) as [[? ?] ?].
    - destruct (JS.truthy _); [rewrite Hnone|]; by destruct (k None s) as [[? ?] ?]. }
  rewrite Hby. simpl. rewrite (proj2 (String.eqb_neq name "") Hname). simpl.
  unfold Accounts.findOne, Accounts.create, Accounts.save,
    Store.find_asc_limit, Store.guard.
  rewrite Hh, (proj2 (String.eqb_neq name "") Hname). simpl.
  destruct (list_find (λ u, username u = name) (accounts (db s)))
    as [[i u]|] eqn:Hf; simpl; rewrite Hh; simpl; rewrite ?Hh; simpl.
  - apply list_find_Some in Hf as (_ & Hu & _).
    eexists. rewrite JSMap_get_set_eq. by repeat split.
  - eexists. rewrite JSMap_get_set_eq. by repeat split.
Qed.

(** A join without a name, and with no id or with an id that no account
    has, binds nobody. *)
Lemma on_user_join_nobody sid userData s :
  JS.truthy (userData ≫= j_username) = false →
  JS.truthy (userData ≫= j_userId) = false
  ∨ Accounts.findById (db s) (default "" (userData ≫= j_userId)) = inr None →
  onlineUsers (state_after (SocketHandler.on_user_join sid userData) s)
  = onlineUsers s.
Proof.
  intros Hname Hid.
  unfold state_after, run, SocketHandler.on_user_join, try_catch, bind, query,
    insert_doc, update, modify, SocketHandler.broadcastOnlineUsers, get_state,
    emit, SocketHandler.sendNotification, log, ret.
  rewrite Hname.
  destruct Hid as [->|Hnone]; [|destruct (JS.truthy (userData ≫= j_userId));
                                  [rewrite Hnone|]]; simpl.
  all: by destruct (Store.find_asc_limit (db s) "global" SocketHandler.history_limit).
Qed.


(** ** Instances *)

(** C4 at a concrete input: alice sends to bob while s3 sits in the room
    of bob's identity. *)
Lemma send_fan_out_priority_witness :
  audience "message:new"
    (trace_of (SocketHandler.on_message_send "s1" Scenario.direct) Scenario.tapped)
  = Spec.room_destinations Scenario.tapped "s1" Scenario.direct
  ∧ audience "message:new"
      (trace_of (ChatNamespace.on_send_message "s1" Scenario.direct true) Scenario.tapped)
    = Spec.room_destinations Scenario.tapped "s1" Scenario.direct.
Proof.
  edestruct (send_fan_out_priority Scenario.tapped "s1" Scenario.direct true)
    as (Hsend & Hack & _).
  - reflexivity.
  - split; [exact Hsend | exact Hack].
Defined.




(** * Further properties *)

(** ** The room index *)

Lemma members_join rs r k r' :
  Rooms.members (Rooms.join rs r k) r'
  = if decide (r' = r) then {[k]} ∪ Rooms.members rs r else Rooms.members rs r'.
Proof.
  unfold Rooms.join, Rooms.members at 1. case_decide as Hr.
  - subst. by rewrite lookup_insert_eq.
  - by rewrite lookup_insert_ne.
Qed.

Lemma members_leave rs r k r' :
  Rooms.members (Rooms.leave rs r k) r'
  = if decide (r' = r) then Rooms.members rs r ∖ {[k]} else Rooms.members rs r'.
Proof.
  unfold Rooms.leave, Rooms.members.
  destruct (rs !! r) as [m|] eqn:Hm.
  - destruct (decide (m ∖ {[k]} = ∅)) as [He|He];
      destruct (decide (r' = r)) as [->|Hr]; simpl.
    + by rewrite lookup_delete_eq, He.
    + by rewrite lookup_delete_ne.
    + by rewrite lookup_insert_eq.
    + by rewrite lookup_insert_ne.
  - destruct (decide (r' = r)) as [->|Hr]; [|done]. rewrite ?Hm. simpl. set_solver.
Qed.

Lemma members_socketsJoin rs src r r' :
  Rooms.members (Rooms.socketsJoin rs src r) r'
  = if decide (r' = r) then Rooms.members rs src ∪ Rooms.members rs r
    else Rooms.members rs r'.
Proof.
  unfold Rooms.socketsJoin. case_decide as He.
  - rewrite He. case_decide; subst; [|done]. set_solver.
  - unfold Rooms.members at 1. case_decide; subst.
    + by rewrite lookup_insert_eq.
    + by rewrite lookup_insert_ne.
Qed.

Lemma members_purge rs k r :
  Rooms.members (Rooms.purge rs k) r = Rooms.members rs r ∖ {[k]}.
Proof.
  unfold Rooms.purge, Rooms.members. rewrite map_lookup_filter, lookup_fmap.
  destruct (rs !! r) as [m|]; simpl; [|set_solver].
  case_guard as Hg; simpl in *; [done|].
  destruct (decide (m ∖ {[k]} = ∅)) as [->|Hne]; [done|by destruct Hg].
Qed.

(** ** What an event does to the registries *)

Ltac run_handler :=
  unfold step, state_after, trace_of, run, dispatch, try_catch, bind, query,
    insert_doc, update, modify, get_state, emit, log, ret, when;
  repeat (case_match; simplify_eq/=).

Lemma on_message_read_registries sid p s :
  registries_kept s (state_after (SocketHandler.on_message_read sid p) s).
Proof. unfold SocketHandler.on_message_read. by run_handler. Qed.

Lemma on_message_react_registries sid p s :
  registries_kept s (state_after (SocketHandler.on_message_react sid p) s).
Proof. unfold SocketHandler.on_message_react. by run_handler. Qed.

Lemma on_message_delivered_registries sid p s :
  registries_kept s
    (state_after (let* _ := ChatNamespace.on_message_delivered sid p in
                  SocketHandler.on_message_delivered sid p) s).
Proof.
  unfold SocketHandler.on_message_delivered, ChatNamespace.on_message_delivered.
  by run_handler.
Qed.

Lemma on_message_send_registries sid payload s :
  registries_kept s (state_after (SocketHandler.on_message_send sid payload) s).
Proof.
  unfold state_after. pose proof (on_message_send_run sid payload s) as H.
  destruct (Store.create _ _) as [e|[d' m]]; [by rewrite H|].
  by destruct H as (t & n & -> & _).
Qed.

Lemma on_send_message_registries sid payload cb s :
  registries_kept s (state_after (ChatNamespace.on_send_message sid payload cb) s).
Proof.
  unfold state_after. pose proof (on_send_message_run sid payload cb s) as H.
  destruct (Store.create _ _) as [e|[d' m]]; [by rewrite H|].
  by destruct H as (t & n & -> & _).
Qed.

Lemma on_user_join_rooms sid userData s :
  sockets (state_after (SocketHandler.on_user_join sid userData) s) = sockets s
  ∧ ((onlineUsers (state_after (SocketHandler.on_user_join sid userData) s)
      = onlineUsers s
      ∧ rooms (state_after (SocketHandler.on_user_join sid userData) s) = rooms s)
     ∨ ∃ u, onlineUsers (state_after (SocketHandler.on_user_join sid userData) s)
            = JSMap.set sid (SocketHandler.set_online u sid) (onlineUsers s)
            ∧ rooms (state_after (SocketHandler.on_user_join sid userData) s)
              = Rooms.join (rooms s) (user_room (u_id u)) sid).
Proof.
  unfold SocketHandler.on_user_join, SocketHandler.broadcastOnlineUsers,
    SocketHandler.sendNotification.
  run_handler; eauto.
Qed.

Lemma on_room_join_registries sid room s :
  onlineUsers (state_after (SocketHandler.on_room_join sid room) s) = onlineUsers s
  ∧ sockets (state_after (SocketHandler.on_room_join sid room) s) = sockets s
  ∧ rooms (state_after (SocketHandler.on_room_join sid room) s)
    = if JS.truthy room then Rooms.join (rooms s) (default "" room) sid else rooms s.
Proof.
  unfold SocketHandler.on_room_join, SocketHandler.sendNotification.
  destruct (JS.truthy room); by run_handler.
Qed.

Lemma on_room_leave_registries sid room s :
  onlineUsers (state_after (SocketHandler.on_room_leave sid room) s) = onlineUsers s
  ∧ sockets (state_after (SocketHandler.on_room_leave sid room) s) = sockets s
  ∧ rooms (state_after (SocketHandler.on_room_leave sid room) s)
    = if JS.truthy room then Rooms.leave (rooms s) (default "" room) sid else rooms s.
Proof.
  unfold SocketHandler.on_room_leave, SocketHandler.sendNotification.
  destruct (JS.truthy room); by run_handler.
Qed.

Lemma on_private_message_registries sid p s :
  onlineUsers (state_after (SocketHandler.on_private_message sid p) s) = onlineUsers s
  ∧ sockets (state_after (SocketHandler.on_private_message sid p) s) = sockets s
  ∧ (rooms (state_after (SocketHandler.on_private_message sid p) s) = rooms s
     ∨ rooms (state_after (SocketHandler.on_private_message sid p) s)
       = Rooms.socketsJoin
           (Rooms.join (rooms s) (privateRoomKey (pm_senderId p) (pm_toUserId p)) sid)
           (user_room (pm_toUserId p))
           (privateRoomKey (pm_senderId p) (pm_toUserId p))).
Proof.
  unfold SocketHandler.on_private_message, SocketHandler.sendNotification.
  run_handler; auto.
Qed.

Lemma on_disconnect_registries sid s :
  onlineUsers (step s sid Disconnect).1 = JSMap.delete sid (onlineUsers s)
  ∧ sockets (step s sid Disconnect).1 = sockets s ∖ {[sid]}
  ∧ rooms (step s sid Disconnect).1 = Rooms.purge (rooms s) sid.
Proof.
  unfold step, dispatch, SocketHandler.on_disconnect,
    SocketHandler.broadcastOnlineUsers, SocketHandler.sendNotification.
  by run_handler.
Qed.

(** ** The presence map *)

Lemma JSMap_keys_delete {V} (k k' : string) (m : list (string * V)) :
  k' ∈ fst <$> JSMap.delete k m → k' ∈ fst <$> m.
Proof.
  induction m as [|[k0 v0] m IH]; [done|]. cbn [JSMap.delete].
  destruct (String.eqb_spec k0 k) as [->|Hne]; rewrite !fmap_cons; cbn [fst];
    set_solver.
Qed.

Lemma JSMap_delete_NoDup {V} (k : string) (m : list (string * V)) :
  NoDup (fst <$> m) →
  NoDup (fst <$> JSMap.delete k m) ∧ k ∉ fst <$> JSMap.delete k m.
Proof.
  induction m as [|[k0 v0] m IH]; [by split; [|set_solver]|].
  rewrite fmap_cons. cbn [fst JSMap.delete]. intros [Hk0 Hnd]%NoDup_cons.
  destruct (String.eqb_spec k0 k) as [->|Hne]; [done|].
  destruct (IH Hnd) as [IH1 IH2]. rewrite fmap_cons. cbn [fst]. split.
  - apply NoDup_cons. split; [|done]. intros Hin. by apply JSMap_keys_delete in Hin.
  - set_solver.
Qed.

Lemma JSMap_get_None {V} (k : string) (m : list (string * V)) :
  k ∉ fst <$> m → JSMap.get k m = None.
Proof.
  induction m as [|[k0 v0] m IH]; [done|].
  rewrite fmap_cons. cbn [fst JSMap.get]. intros [Hne Hk]%not_elem_of_cons.
  rewrite (proj2 (String.eqb_neq k0 k)) by done. auto.
Qed.

Lemma JSMap_get_delete_ne {V} (k k' : string) (m : list (string * V)) :
  k' ≠ k → JSMap.get k' (JSMap.delete k m) = JSMap.get k' m.
Proof.
  intros Hne. induction m as [|[k0 v0] m IH]; [done|]. cbn [JSMap.delete JSMap.get].
  destruct (String.eqb_spec k0 k) as [->|Hk0]; cbn [JSMap.get].
  - by rewrite (proj2 (String.eqb_neq k k')).
  - by rewrite IH.
Qed.

Lemma JSMap_keys_set_elem {V} (k k' : string) (v : V) (m : list (string * V)) :
  k' ∈ fst <$> JSMap.set k v m → k' = k ∨ k' ∈ fst <$> m.
Proof. rewrite JSMap_keys_set. case_bool_decide; set_solver. Qed.

(** ** Closing a socket *)

(** X2. After a socket closes, it has no presence entry, is a member of no
    room and is no longer connected; the presence entry of every other
    socket and the other members of every room are as before. *)
Theorem disconnect_purges_socket (s : Server) (sid : string) :
  NoDup (fst <$> onlineUsers s) →
  JSMap.get sid (onlineUsers (step s sid Disconnect).1) = None
  ∧ (sid ∉ sockets (step s sid Disconnect).1)
  ∧ (∀ r, Rooms.members (rooms (step s sid Disconnect).1) r
          = Rooms.members (rooms s) r ∖ {[sid]})
  ∧ (∀ sid', sid' ≠ sid →
       JSMap.get sid' (onlineUsers (step s sid Disconnect).1)
       = JSMap.get sid' (onlineUsers s)).
Proof.
  intros Hnd. destruct (on_disconnect_registries sid s) as (-> & -> & ->).
  split; [apply JSMap_get_None; by apply JSMap_delete_NoDup|].
  split; [set_solver|]. split; [intros; apply members_purge|].
  intros sid' Hne. by apply JSMap_get_delete_ne.
Qed.

Lemma disconnect_purges_socket_witness :
  JSMap.get "s1" (onlineUsers (step Scenario.twice "s1" Disconnect).1) = None
  ∧ JSMap.get "s2" (onlineUsers (step Scenario.twice "s1" Disconnect).1)
    = JSMap.get "s2" (onlineUsers Scenario.twice).
Proof.
  destruct (disconnect_purges_socket Scenario.twice "s1") as (Hgone & _ & _ & Hothers).
  - vm_compute. repeat constructor; set_solver.
  - split; [exact Hgone|]. apply Hothers. discriminate.
Defined.

(** ** The message collection only grows *)

Lemma kept_refl m : kept m m.
Proof. by repeat split. Qed.

Lemma save_found_at d id m m' :
  Store.findById d id = inr (Some m) → m_id m' = id →
  ∃ d' i, Store.save d m' = inr d'
          ∧ messages d' = <[i := m']> (messages d)
          ∧ messages d !! i = Some m.
Proof.
  intros Hfind Hid. pose proof (findById_healthy _ _ _ Hfind) as Hh.
  unfold Store.findById, Store.save, Store.guard in *. rewrite Hh in *.
  destruct (list_find (λ x, m_id x = id) (messages d)) as [[i x]|] eqn:Hf;
    [|done].
  rewrite Hid, Hf. injection Hfind as ->. eexists _, i. split; [reflexivity|].
  split; [done|]. by apply list_find_Some in Hf as (? & _).
Qed.

Lemma accounts_save_messages d u d' :
  Accounts.save d u = inr d' → messages d' = messages d.
Proof. unfold Accounts.save. destruct (Store.guard d); [done|]. by intros [= <-]. Qed.

Lemma accounts_create_messages d name sid d' u :
  Accounts.create d name sid = inr (d', u) → messages d' = messages d.
Proof.
  unfold Accounts.create. destruct (Store.guard d); [done|].
  destruct (String.eqb name ""); [done|]. by intros [= <- <-].
Qed.

Ltac accounts_messages :=
  repeat match goal with
  | H : Accounts.save _ _ = inr _ |- _ => apply accounts_save_messages in H
  | H : Accounts.create _ _ _ = inr _ |- _ => apply accounts_create_messages in H
  end.

Lemma on_user_join_messages sid userData s :
  messages (db (state_after (SocketHandler.on_user_join sid userData) s))
  = messages (db s).
Proof.
  unfold SocketHandler.on_user_join, SocketHandler.broadcastOnlineUsers,
    SocketHandler.sendNotification.
  run_handler; accounts_messages; congruence.
Qed.

Lemma on_disconnect_messages sid s :
  messages (db (step s sid Disconnect).1) = messages (db s).
Proof.
  unfold step, dispatch, SocketHandler.on_disconnect,
    SocketHandler.broadcastOnlineUsers, SocketHandler.sendNotification.
  run_handler; accounts_messages; simpl in *; congruence.
Qed.

Lemma grows_lookup ms ms' i m :
  grows ms ms' → ms !! i = Some m → ∃ m', ms' !! i = Some m' ∧ kept m m'.
Proof.
  intros Hg Hi. destruct Hg as [ms|ms x|ms j x x' Hj Hk].
  - exists m. split; [done|apply kept_refl].
  - exists m. split; [by apply lookup_app_l_Some|apply kept_refl].
  - destruct (decide (i = j)) as [->|Hne].
    + exists x'. rewrite list_lookup_insert_eq by (by eapply lookup_lt_Some).
      split; [done|]. congruence.
    + exists m. rewrite list_lookup_insert_ne by done. split; [done|apply kept_refl].
Qed.

Lemma on_message_read_grows sid p s :
  grows (messages (db s))
    (messages (db (state_after (SocketHandler.on_message_read sid p) s))).
Proof.
  unfold SocketHandler.on_message_read. run_handler; try constructor.
  match goal with H : Store.findById _ _ = inr (Some ?m), H' : Store.save _ ?m' = _ |- _ =>
    destruct (save_found_at _ _ m m' H) as (d' & i & Hs & Hms & Hi);
      [by apply findById_id in H|]; rewrite Hs in H'; simplify_eq; rewrite Hms end.
  eapply grows_edit; [done|]. repeat split; simpl; try done.
  by apply prefix_app_r.
Qed.

Lemma on_message_react_grows sid p s :
  grows (messages (db s))
    (messages (db (state_after (SocketHandler.on_message_react sid p) s))).
Proof.
  unfold SocketHandler.on_message_react. run_handler; try constructor.
  match goal with H' : Store.save_reactions _ _ = _ |- _ =>
    unfold Store.save_reactions in H'; destruct (Store.validate_reactions _); [done|] end.
  match goal with H : Store.findById _ _ = inr (Some ?m), H' : Store.save _ ?m' = _ |- _ =>
    destruct (save_found_at _ _ m m' H) as (d' & i & Hs & Hms & Hi);
      [by apply findById_id in H|]; rewrite Hs in H'; simplify_eq; rewrite Hms end.
  eapply grows_edit; [done|]. by repeat split.
Qed.

Lemma on_message_delivered_grows sid p s :
  grows (messages (db s))
    (messages (db (state_after (let* _ := ChatNamespace.on_message_delivered sid p in
                                SocketHandler.on_message_delivered sid p) s))).
Proof.
  unfold SocketHandler.on_message_delivered, ChatNamespace.on_message_delivered.
  run_handler; try constructor.
  match goal with H : Store.save_untracked _ _ = inr _ |- _ =>
    unfold Store.save_untracked in H; destruct (Store.guard _); simplify_eq end.
  constructor.
Qed.

Lemma on_message_send_grows sid payload s :
  grows (messages (db s))
    (messages (db (state_after (SocketHandler.on_message_send sid payload) s))).
Proof.
  unfold state_after. pose proof (on_message_send_run sid payload s) as H.
  destruct (Store.create _ _) as [e|[d' m]] eqn:Hc; [rewrite H; constructor|].
  destruct H as (t & n & -> & _). simpl.
  rewrite (create_persists _ _ _ _ Hc). constructor.
Qed.

Lemma on_send_message_grows sid payload cb s :
  grows (messages (db s))
    (messages (db (state_after (ChatNamespace.on_send_message sid payload cb) s))).
Proof.
  unfold state_after. pose proof (on_send_message_run sid payload cb s) as H.
  destruct (Store.create _ _) as [e|[d' m]] eqn:Hc; [rewrite H; constructor|].
  destruct H as (t & n & -> & _). simpl.
  rewrite (create_persists _ _ _ _ Hc). constructor.
Qed.

Lemma on_private_message_grows sid p s :
  grows (messages (db s))
    (messages (db (state_after (SocketHandler.on_private_message sid p) s))).
Proof.
  unfold SocketHandler.on_private_message, SocketHandler.sendNotification.
  run_handler; try constructor.
  match goal with H : Store.create _ _ = inr _ |- _ =>
    rewrite (create_persists _ _ _ _ H) end.
  constructor.
Qed.

Lemma on_room_join_messages sid room s :
  messages (db (state_after (SocketHandler.on_room_join sid room) s))
  = messages (db s).
Proof.
  unfold SocketHandler.on_room_join, SocketHandler.sendNotification.
  destruct (JS.truthy room); by run_handler.
Qed.

Lemma step_grows s sid ev :
  grows (messages (db s)) (messages (db (step s sid ev).1)).
Proof.
  destruct ev as [userData|room|room|payload|payload cb|p|p|p|p|p|p|].
  - change (step s sid (UserJoin userData)).1
      with (state_after (SocketHandler.on_user_join sid userData) s).
    rewrite on_user_join_messages. constructor.
  - change (step s sid (RoomJoin room)).1
      with (state_after (SocketHandler.on_room_join sid room) s).
    rewrite on_room_join_messages. constructor.
  - unfold step, run, dispatch, SocketHandler.on_room_leave,
      SocketHandler.sendNotification.
    destruct (JS.truthy room); simpl; constructor.
  - apply on_message_send_grows.
  - apply on_send_message_grows.
  - apply on_private_message_grows.
  - apply on_message_read_grows.
  - apply on_message_react_grows.
  - constructor.
  - constructor.
  - apply on_message_delivered_grows.
  - rewrite on_disconnect_messages. constructor.
Qed.

(** X3. No event of the socket layer removes or rewrites a stored message:
    after any event each message is still at its place with the fields it
    was created with, and with [readBy] and [deliveredBy] extended at
    most; at most one message is added. *)
Theorem events_keep_stored_messages (s : Server) (sid : string) (ev : Event)
    (i : nat) (m : Message) :
  messages (db s) !! i = Some m →
  (∃ m', messages (db (step s sid ev).1) !! i = Some m' ∧ kept m m')
  ∧ (List.length (messages (db (step s sid ev).1))
     ≤ S (List.length (messages (db s))))%nat.
Proof.
  intros Hi. split; [by eapply grows_lookup; [apply step_grows|]|].
  destruct (step_grows s sid ev) as [ms|ms x|ms j x x' Hj Hk].
  - lia.
  - rewrite length_app. simpl. lia.
  - rewrite length_insert. lia.
Qed.

Lemma events_keep_stored_messages_witness :
  ∃ m', messages (db (step Scenario.posted "s2" (MessageRead Scenario.seen)).1) !! 0
        = Some m'
        ∧ m_id m' = "m0" ∧ content m' = "hi".
Proof.
  edestruct (events_keep_stored_messages Scenario.posted "s2"
               (MessageRead Scenario.seen) 0) as [(m' & Hm' & Hkept) _].
  - reflexivity.
  - exists m'. split; [exact Hm'|].
    destruct Hkept as (Hid & _ & _ & _ & _ & Hcontent & _).
    split; [exact Hid | exact Hcontent].
Defined.

(** ** Sorted pages *)

Lemma insert_asc_perm x l : Store.insert_asc x l ≡ₚ x :: l.
Proof.
  induction l as [|y l IH]; simpl; [done|].
  destruct (createdAt y <? createdAt x)%nat; [|done].
  by rewrite IH, Permutation_swap.
Qed.

Lemma sort_asc_perm l : Store.sort_asc l ≡ₚ l.
Proof.
  induction l as [|x l IH]; simpl; [done|].
  by rewrite insert_asc_perm, IH.
Qed.

Lemma insert_asc_sorted x l :
  StronglySorted oldest_first l → StronglySorted oldest_first (Store.insert_asc x l).
Proof.
  induction 1 as [|y l Hs IH Hy]; simpl; [by repeat constructor|].
  destruct (Nat.ltb_spec (createdAt y) (createdAt x)) as [Hlt|Hge].
  - constructor; [done|]. rewrite insert_asc_perm. constructor; [|done].
    unfold oldest_first. lia.
  - constructor; [by constructor|]. constructor; [done|].
    eapply Forall_impl; [exact Hy|]. unfold oldest_first. intros z Hz. simpl in *. lia.
Qed.

Lemma sort_asc_sorted l : StronglySorted oldest_first (Store.sort_asc l).
Proof.
  induction l as [|x l IH]; simpl; [constructor|]. by apply insert_asc_sorted.
Qed.

Lemma insert_desc_perm x l : Store.insert_desc x l ≡ₚ x :: l.
Proof.
  induction l as [|y l IH]; simpl; [done|].
  destruct (createdAt x <? createdAt y)%nat; [|done].
  by rewrite IH, Permutation_swap.
Qed.

Lemma sort_desc_perm l : Store.sort_desc l ≡ₚ l.
Proof.
  induction l as [|x l IH]; simpl; [done|].
  by rewrite insert_desc_perm, IH.
Qed.

Lemma insert_desc_sorted x l :
  StronglySorted newest_first l → StronglySorted newest_first (Store.insert_desc x l).
Proof.
  induction 1 as [|y l Hs IH Hy]; simpl; [by repeat constructor|].
  destruct (Nat.ltb_spec (createdAt x) (createdAt y)) as [Hlt|Hge].
  - constructor; [done|]. rewrite insert_desc_perm. constructor; [|done].
    unfold newest_first. lia.
  - constructor; [by constructor|]. constructor; [done|].
    eapply Forall_impl; [exact Hy|]. unfold newest_first. intros z Hz. simpl in *. lia.
Qed.

Lemma sort_desc_sorted l : StronglySorted newest_first (Store.sort_desc l).
Proof.
  induction l as [|x l IH]; simpl; [constructor|]. by apply insert_desc_sorted.
Qed.

Lemma sorted_reverse l :
  StronglySorted newest_first l → StronglySorted oldest_first (reverse l).
Proof.
  induction 1 as [|x l Hs IH Hx]; [constructor|].
  rewrite reverse_cons. apply StronglySorted_app_2; [|done|by repeat constructor].
  intros a b Ha ->%list_elem_of_singleton. rewrite elem_of_reverse in Ha.
  rewrite Forall_forall in Hx. exact (Hx a Ha).
Qed.

(** The first [n] of a sorted list: sorted, and in front of all the rest. *)
Lemma sorted_page {R : relation Message} (l : list Message) (n : nat) :
  StronglySorted R l →
  StronglySorted R (take n l)
  ∧ (∀ a b, a ∈ take n l → b ∈ l → b ∉ take n l → R a b).
Proof.
  intros Hs. rewrite <-(take_drop n l) in Hs at 1.
  split; [by eapply StronglySorted_app_1_l|].
  intros a b Ha Hb Hnb. eapply StronglySorted_app_1_elem_of; [exact Hs|done|].
  rewrite <-(take_drop n l) in Hb. set_solver.
Qed.

Lemma elem_of_in_room d r m :
  m ∈ Store.in_room d r ↔ m ∈ messages d ∧ roomId m = r.
Proof. unfold Store.in_room. rewrite list_elem_of_filter. naive_solver. Qed.

(** The page that [sort({createdAt: 1}).limit(n)] reads. *)
Lemma oldest_page d r n :
  oldest_page_of d r n (take n (Store.sort_asc (Store.in_room d r))).
Proof.
  destruct (sorted_page (R:=oldest_first) (Store.sort_asc (Store.in_room d r)) n
              (sort_asc_sorted _)) as [Hs Hfront].
  split; [split; [rewrite length_take; lia|split; [done|]]|split].
  - intros m Hm%(subseteq_take n). rewrite sort_asc_perm in Hm.
    by apply elem_of_in_room.
  - intros m m' Hm Hm' Hr Hout. apply Hfront; [done| |done].
    rewrite sort_asc_perm. by apply elem_of_in_room.
  - intros Hlen m Hm Hr. rewrite take_ge.
    + rewrite sort_asc_perm. by apply elem_of_in_room.
    + by rewrite sort_asc_perm.
Qed.

(** The page that [sort({createdAt: -1}).limit(n)] reads, reversed. *)
Lemma newest_page d r n :
  newest_page_of d r n (reverse (take n (Store.sort_desc (Store.in_room d r)))).
Proof.
  destruct (sorted_page (R:=newest_first) (Store.sort_desc (Store.in_room d r)) n
              (sort_desc_sorted _)) as [Hs Hfront].
  split; [split; [rewrite length_reverse, length_take; lia|split; [by apply sorted_reverse|]]|split].
  - intros m Hm. rewrite elem_of_reverse in Hm. apply (subseteq_take n) in Hm.
    rewrite sort_desc_perm in Hm. by apply elem_of_in_room.
  - intros m m' Hm Hm' Hr Hout. rewrite elem_of_reverse in Hm, Hout.
    apply (Hfront m m'); [done| |done].
    rewrite sort_desc_perm. by apply elem_of_in_room.
  - intros Hlen m Hm Hr. rewrite elem_of_reverse, take_ge.
    + rewrite sort_desc_perm. by apply elem_of_in_room.
    + by rewrite sort_desc_perm.
Qed.

Lemma guard_healthy d : healthy d = true → Store.guard d = inr tt.
Proof. unfold Store.guard. by intros ->. Qed.

Lemma accounts_save_healthy d u d' :
  Accounts.save d u = inr d' → healthy d' = healthy d.
Proof. unfold Accounts.save. destruct (Store.guard d); [done|]. by intros [= <-]. Qed.

Lemma accounts_create_healthy d name sid d' u :
  Accounts.create d name sid = inr (d', u) → healthy d' = healthy d.
Proof.
  unfold Accounts.create. destruct (Store.guard d); [done|].
  destruct (String.eqb name ""); [done|]. by intros [= <- <-].
Qed.

Lemma find_asc_limit_healthy d r n :
  healthy d = true →
  Store.find_asc_limit d r n = inr (take n (Store.sort_asc (Store.in_room d r))).
Proof. intros Hh. unfold Store.find_asc_limit. by rewrite guard_healthy. Qed.

Lemma in_room_messages d d' r :
  messages d' = messages d → Store.in_room d' r = Store.in_room d r.
Proof. unfold Store.in_room. by intros ->. Qed.

Lemma accounts_create_healthy_ok d o sid e :
  healthy d = true → JS.truthy o = true →
  Accounts.create d (default "" o) sid = inl e → False.
Proof.
  intros Hh Ho. unfold Accounts.create. rewrite guard_healthy by done.
  destruct o as [name|]; [|done]. simpl in *.
  by destruct (String.eqb name "").
Qed.

(** On a healthy store a join pushes one history: the page of the
    global room. *)
Lemma on_user_join_history sid userData s :
  healthy (db s) = true →
  histories (trace_of (SocketHandler.on_user_join sid userData) s)
  = [take 100 (Store.sort_asc (Store.in_room (db s) "global"))]
  ∧ emitted "messages:history" (trace_of (SocketHandler.on_user_join sid userData) s)
    = [(ToSocket sid, {[sid]})].
Proof.
  intros Hh.
  unfold SocketHandler.on_user_join, SocketHandler.broadcastOnlineUsers,
    SocketHandler.sendNotification, SocketHandler.history_limit.
  run_handler.
  all: repeat match goal with
       | H : Accounts.save ?d _ = inr ?d' |- _ =>
           pose proof (accounts_save_healthy _ _ _ H);
           pose proof (accounts_save_messages _ _ _ H); clear H
       | H : Accounts.create ?d _ _ = inr (?d', _) |- _ =>
           pose proof (accounts_create_healthy _ _ _ _ _ H);
           pose proof (accounts_create_messages _ _ _ _ _ H); clear H
       end.
  all: repeat match goal with
       | H : Store.find_asc_limit ?d _ _ = _ |- _ =>
           rewrite find_asc_limit_healthy in H by congruence; simplify_eq
       end.
  all: try (split; [|done]; simpl; f_equal; f_equal; f_equal;
            apply in_room_messages; congruence).
  all: exfalso.
  all: repeat match goal with
       | H : Accounts.findById _ _ = inl _ |- _ =>
           unfold Accounts.findById in H; rewrite guard_healthy in H by congruence
       | H : Accounts.findOne _ _ = inl _ |- _ =>
           unfold Accounts.findOne in H; rewrite guard_healthy in H by congruence
       | H : Accounts.save _ _ = inl _ |- _ =>
           unfold Accounts.save in H; rewrite guard_healthy in H by congruence
       end; try done.
  all: by eapply accounts_create_healthy_ok.
Qed.

Lemma on_room_join_history sid r s :
  healthy (db s) = true → r ≠ "" →
  histories (trace_of (SocketHandler.on_room_join sid (Some r)) s)
  = [take 100 (Store.sort_asc (Store.in_room (db s) r))]
  ∧ emitted "messages:history" (trace_of (SocketHandler.on_room_join sid (Some r)) s)
    = [(ToSocket sid, {[sid]})].
Proof.
  intros Hh Hr.
  unfold SocketHandler.on_room_join, SocketHandler.sendNotification,
    SocketHandler.history_limit.
  simpl. rewrite (proj2 (String.eqb_neq r "") Hr). simpl.
  unfold trace_of, run, bind, modify, query, emit. simpl.
  by rewrite find_asc_limit_healthy.
Qed.

(** X4. On a healthy store a room join and a user join push exactly one
    history, to the joining socket only. It is a page of at most 100
    messages of the room (the global room for a user join) in ascending
    order of creation, read from the old end of the room: a message of the
    room that is left out is no older than any message pushed, and nothing
    is left out when the room holds 100 messages or fewer. *)
Theorem join_pushes_oldest_page (s : Server) (sid r : string)
    (userData : option JoinPayload) :
  healthy (db s) = true → r ≠ "" →
  (∃ h, histories (trace_of (SocketHandler.on_room_join sid (Some r)) s) = [h]
        ∧ emitted "messages:history"
            (trace_of (SocketHandler.on_room_join sid (Some r)) s)
          = [(ToSocket sid, {[sid]})]
        ∧ oldest_page_of (db s) r 100 h)
  ∧ (∃ h, histories (trace_of (SocketHandler.on_user_join sid userData) s) = [h]
          ∧ emitted "messages:history"
              (trace_of (SocketHandler.on_user_join sid userData) s)
            = [(ToSocket sid, {[sid]})]
          ∧ oldest_page_of (db s) "global" 100 h).
Proof.
  intros Hh Hr. split.
  - destruct (on_room_join_history sid r s Hh Hr) as [-> ->].
    eexists. split; [done|]. split; [done|]. apply oldest_page.
  - destruct (on_user_join_history sid userData s Hh) as [-> ->].
    eexists. split; [done|]. split; [done|]. apply oldest_page.
Qed.

Lemma join_pushes_oldest_page_witness :
  ∃ h, histories (trace_of (SocketHandler.on_room_join "s2" (Some "global"))
                    Scenario.posted) = [h]
       ∧ oldest_page_of (db Scenario.posted) "global" 100 h.
Proof.
  destruct (join_pushes_oldest_page Scenario.posted "s2" "global" None)
    as [(h & Hh & _ & Hpage) _].
  - reflexivity.
  - discriminate.
  - exists h. split; [exact Hh | exact Hpage].
Defined.

(** X5. On a healthy store the REST route answers with a page of the room
    in ascending order of creation, at most [limit] long (20 when the limit
    is missing or 0). Without [skip] the page is read from the new end of
    the room: a message of the room that is left out is no newer than any
    message of the page. *)
Theorem rest_route_reads_newest_page (d : Db) (r : string) (limit skip : option nat) :
  healthy d = true →
  ∃ page, MessageRoutes.get_messages d r limit skip = inr page
          ∧ page_of d r (match limit with Some (S n) => S n | _ => 20 end) page
          ∧ (default 0 skip = 0 →
             newest_page_of d r (match limit with Some (S n) => S n | _ => 20 end) page).
Proof.
  intros Hh. unfold MessageRoutes.get_messages, Store.find_desc_skip_limit.
  rewrite guard_healthy by done. eexists. split; [reflexivity|].
  set (n := match limit with Some (S n) => S n | _ => 20 end).
  split.
  - split; [rewrite length_reverse, length_take; lia|]. split.
    + apply sorted_reverse.
      destruct (sorted_page (R:=newest_first)
                  (drop (default 0 skip) (Store.sort_desc (Store.in_room d r))) n)
        as [Hs _]; [|done].
      pose proof (sort_desc_sorted (Store.in_room d r)) as Hsort.
      rewrite <-(take_drop (default 0 skip)) in Hsort.
      by eapply StronglySorted_app_1_r.
    + intros m Hm. rewrite elem_of_reverse in Hm.
      apply (subseteq_take n), (subseteq_drop (default 0 skip)) in Hm.
      rewrite sort_desc_perm in Hm. by apply elem_of_in_room.
  - intros ->. rewrite drop_0. apply newest_page.
Qed.

Lemma rest_route_reads_newest_page_witness :
  ∃ page, MessageRoutes.get_messages (db Scenario.busy) "global" (Some 100) None
          = inr page
          ∧ newest_page_of (db Scenario.busy) "global" 100 page.
Proof.
  destruct (rest_route_reads_newest_page (db Scenario.busy) "global" (Some 100) None)
    as (page & Hpage & _ & Hnew).
  - reflexivity.
  - exists page. split; [exact Hpage|]. apply Hnew. reflexivity.
Defined.

(** ** Private messages *)

(** A document passes validation when it has a sender id, a sender name
    and a url on every attachment. *)
Lemma validate_ok f :
  JS.truthy (f_senderId f) = true → JS.truthy (f_senderName f) = true →
  Forall (λ a, url a ≠ "") (f_attachments f) →
  Store.validate f = inr tt.
Proof.
  intros Hid Hname Hurl. unfold Store.validate. rewrite Hid, Hname. simpl.
  replace (forallb (λ a, negb (String.eqb (url a) "")) (f_attachments f)) with true;
    [done|].
  symmetry. induction Hurl as [|a l Ha _ IH]; simpl; [done|].
  by rewrite (proj2 (String.eqb_neq (url a) "") Ha).
Qed.

(** An attachment without url fails validation, when sender id and sender
    name are given. *)
Lemma validate_url_missing f :
  JS.truthy (f_senderId f) = true → JS.truthy (f_senderName f) = true →
  Exists (λ a, url a = "") (f_attachments f) →
  Store.validate f = inl (ValidationError "attachments.url").
Proof.
  intros Hid Hname Hurl. unfold Store.validate. rewrite Hid, Hname. simpl.
  replace (forallb (λ a, negb (String.eqb (url a) "")) (f_attachments f)) with false;
    [done|].
  symmetry. induction Hurl as [a l Ha|a l _ IH]; simpl.
  - by rewrite Ha.
  - by rewrite IH, andb_false_r.
Qed.

Lemma create_healthy_ok d f :
  healthy d = true → Store.validate f = inr tt →
  ∃ d' m, Store.create d f = inr (d', m)
          ∧ messages d' = messages d ++ [m]
          ∧ healthy d' = true
          ∧ roomId m = f_roomId f ∧ recipients m = f_recipients f
          ∧ content m = JS.trim (default "" (f_content f))
          ∧ attachments m = f_attachments f
          ∧ readBy m = [] ∧ reactions m = [].
Proof.
  intros Hh Hvalid. unfold Store.create.
  rewrite Hvalid, guard_healthy by done.
  eexists _, _. split; [reflexivity|]. simpl. by repeat split.
Qed.

Lemma private_key_truthy a b : privateRoomKey a b ≠ "".
Proof. rewrite private_key_cases. done. Qed.

(** What a private message leaves behind on a healthy store. *)
Lemma on_private_message_run sid p s :
  healthy (db s) = true → pm_senderId p ≠ "" → JS.truthy (pm_senderName p) = true →
  Forall (λ a, url a ≠ "") (JS.or_empty (pm_attachments p)) →
  let key := privateRoomKey (pm_senderId p) (pm_toUserId p) in
  let rs := Rooms.socketsJoin (Rooms.join (rooms s) key sid)
              (user_room (pm_toUserId p)) key in
  ∃ d' m n,
    run (SocketHandler.on_private_message sid p) s
    = (with_rooms (with_db s d') rs,
       [Emit (ToRoom key) (Rooms.members rs key) "message:new" (BMessage m);
        Emit ToAll (sockets s) "notification" n])
    ∧ messages d' = messages (db s) ++ [m] ∧ healthy d' = true
    ∧ roomId m = key ∧ recipients m = [pm_toUserId p]
    ∧ content m = JS.trim (default "" (pm_content p)).
Proof.
  intros Hh Hid Hname Hurl key rs.
  destruct (create_healthy_ok (db s)
              {| f_roomId := key; f_senderId := Some (pm_senderId p);
                 f_senderName := pm_senderName p;
                 f_recipients := [pm_toUserId p]; f_content := pm_content p;
                 f_attachments := JS.or_empty (pm_attachments p) |} Hh)
    as (d' & m & Hc & Hms & Hh' & Hroom & Hrec & Hcontent & _).
  { apply validate_ok; [|done|done].
    simpl. by rewrite (proj2 (String.eqb_neq (pm_senderId p) "") Hid). }
  exists d', m. eexists.
  unfold run, SocketHandler.on_private_message, SocketHandler.sendNotification,
    try_catch, bind, insert_doc, modify, emit.
  fold key. rewrite Hc. simpl. split; [reflexivity|]. done.
Qed.

(** X6. On a healthy store a private message that passes validation (a
    sender id, a sender name, a url on every attachment) is stored once,
    under the private room key and with the addressee as its only
    recipient; the sender's socket and the members of the addressee's room
    ["user:<toUserId>"] are put into the private room, and ["message:new"]
    reaches exactly the members of that room: the sender's socket, the
    members of the addressee's room and whoever was in the private room
    before. *)
Theorem private_message_reaches_the_pair (s : Server) (sid : string) (p : PrivatePayload) :
  healthy (db s) = true → pm_senderId p ≠ "" → JS.truthy (pm_senderName p) = true →
  Forall (λ a, url a ≠ "") (JS.or_empty (pm_attachments p)) →
  ∃ m, messages (db (state_after (SocketHandler.on_private_message sid p) s))
       = messages (db s) ++ [m]
       ∧ roomId m = privateRoomKey (pm_senderId p) (pm_toUserId p)
       ∧ recipients m = [pm_toUserId p]
       ∧ audience "message:new" (trace_of (SocketHandler.on_private_message sid p) s)
         = {[sid]} ∪ Rooms.members (rooms s) (user_room (pm_toUserId p))
           ∪ Rooms.members (rooms s) (privateRoomKey (pm_senderId p) (pm_toUserId p))
       ∧ Rooms.members
           (rooms (state_after (SocketHandler.on_private_message sid p) s))
           (privateRoomKey (pm_senderId p) (pm_toUserId p))
         = {[sid]} ∪ Rooms.members (rooms s) (user_room (pm_toUserId p))
           ∪ Rooms.members (rooms s) (privateRoomKey (pm_senderId p) (pm_toUserId p)).
Proof.
  intros Hh Hid Hname Hurl.
  destruct (on_private_message_run sid p s Hh Hid Hname Hurl)
    as (d' & m & n & Hrun & Hms & _ & Hroom & Hrec & _).
  unfold state_after, trace_of. rewrite Hrun. simpl.
  exists m. split; [done|]. split; [done|]. split; [done|].
  assert (Rooms.members
            (Rooms.socketsJoin
               (Rooms.join (rooms s) (privateRoomKey (pm_senderId p) (pm_toUserId p)) sid)
               (user_room (pm_toUserId p))
               (privateRoomKey (pm_senderId p) (pm_toUserId p)))
            (privateRoomKey (pm_senderId p) (pm_toUserId p))
          = {[sid]} ∪ Rooms.members (rooms s) (user_room (pm_toUserId p))
            ∪ Rooms.members (rooms s) (privateRoomKey (pm_senderId p) (pm_toUserId p)))
    as Hmem.
  { rewrite members_socketsJoin, !members_join.
    rewrite decide_True by done. repeat case_decide; set_solver. }
  split; [|done]. unfold audience. simpl. rewrite Hmem. set_solver.
Qed.

Lemma private_message_reaches_the_pair_witness :
  ∃ m, messages (db (state_after (SocketHandler.on_private_message "s1" Scenario.aside)
                       Scenario.signed_in))
       = messages (db Scenario.signed_in) ++ [m]
       ∧ recipients m = [Scenario.bob_id].
Proof.
  destruct (private_message_reaches_the_pair Scenario.signed_in "s1" Scenario.aside)
    as (m & Hm & _ & Hrec & _).
  - reflexivity.
  - discriminate.
  - reflexivity.
  - apply Forall_nil_2.
  - exists m. split; [exact Hm | exact Hrec].
Defined.

Lemma in_room_app d d' r m :
  messages d' = messages d ++ [m] → roomId m = r →
  Store.in_room d' r = Store.in_room d r ++ [m].
Proof.
  intros Hms Hr. unfold Store.in_room.
  by rewrite Hms, filter_app, filter_cons_True, filter_nil.
Qed.

Lemma kept_trans m1 m2 m3 : kept m1 m2 → kept m2 m3 → kept m1 m3.
Proof.
  intros (? & ? & ? & ? & ? & ? & ? & ? & ? & ?) (? & ? & ? & ? & ? & ? & ? & ? & ? & ?).
  repeat split; try congruence; by etrans.
Qed.

(** Whatever events follow, a stored message stays at its place with the
    fields it was created with. *)
Lemma steps_keep_lookup evs s i m :
  messages (db s) !! i = Some m →
  ∃ m', messages (db (steps s evs).1) !! i = Some m' ∧ kept m m'.
Proof.
  revert s m. induction evs as [|[sid ev] evs IH]; intros s m Hi.
  - exists m. split; [done|apply kept_refl].
  - destruct (grows_lookup _ _ i m (step_grows s sid ev) Hi) as (m1 & Hi1 & Hk1).
    destruct (IH _ _ Hi1) as (m2 & Hi2 & Hk2).
    exists m2. split; [|by eapply kept_trans].
    cbn [steps]. destruct (step s sid ev) as [s1 t1]. simpl in *.
    by destruct (steps s1 evs) as [s2 t2].
Qed.

(** X7. A private message that is stored is in the history that any later
    join of its private room pushes, whoever joins and whatever events came
    in between, as long as the store answers and the room holds at most 100
    messages at the time of the join: an addressee who was not connected
    finds it there, with the content and the recipient it was stored
    with. *)
Theorem private_message_is_in_later_history (s : Server) (sid sid' : string)
    (p : PrivatePayload) (evs : list (string * Event)) :
  healthy (db s) = true → pm_senderId p ≠ "" → JS.truthy (pm_senderName p) = true →
  Forall (λ a, url a ≠ "") (JS.or_empty (pm_attachments p)) →
  healthy (db (steps (state_after (SocketHandler.on_private_message sid p) s) evs).1)
  = true →
  (List.length
     (Store.in_room
        (db (steps (state_after (SocketHandler.on_private_message sid p) s) evs).1)
        (privateRoomKey (pm_senderId p) (pm_toUserId p))) ≤ 100)%nat →
  ∃ h m m',
    messages (db (state_after (SocketHandler.on_private_message sid p) s))
    = messages (db s) ++ [m]
    ∧ histories
        (trace_of
           (SocketHandler.on_room_join sid'
              (Some (privateRoomKey (pm_senderId p) (pm_toUserId p))))
           (steps (state_after (SocketHandler.on_private_message sid p) s) evs).1)
      = [h]
    ∧ m' ∈ h
    ∧ kept m m'
    ∧ recipients m' = [pm_toUserId p]
    ∧ content m' = JS.trim (default "" (pm_content p)).
Proof.
  intros Hh Hid Hname Hurl Hlater Hlen.
  destruct (on_private_message_run sid p s Hh Hid Hname Hurl)
    as (d' & m & n & Hrun & Hms & Hh' & Hroom & Hrec & Hcontent).
  unfold state_after in *. rewrite Hrun in *. cbn [fst] in *.
  set (s1 := with_rooms (with_db s d') _) in *.
  assert (messages (db s1) !! List.length (messages (db s)) = Some m) as Hi.
  { simpl. rewrite Hms. by rewrite list_lookup_middle. }
  destruct (steps_keep_lookup evs s1 _ m Hi) as (m' & Hi' & Hk).
  destruct (on_room_join_history sid'
              (privateRoomKey (pm_senderId p) (pm_toUserId p)) (steps s1 evs).1)
    as [-> _]; [done|apply private_key_truthy|].
  eexists _, m, m'. split; [done|]. split; [reflexivity|].
  pose proof Hk as (_ & Hr' & _ & _ & Hrec' & Hc' & _).
  split; [|split; [done|split; congruence]].
  rewrite take_ge by (by rewrite sort_asc_perm).
  rewrite sort_asc_perm. unfold Store.in_room.
  apply list_elem_of_filter. split; [congruence|].
  by eapply list_elem_of_lookup_2.
Qed.

Lemma private_message_is_in_later_history_witness :
  ∃ h m', histories
            (trace_of
               (SocketHandler.on_room_join "s2"
                  (Some (privateRoomKey Scenario.alice_id Scenario.bob_id)))
               (steps (state_after (SocketHandler.on_private_message "s1" Scenario.aside)
                         Scenario.signed_in)
                  [("s3", Scenario.join_as "carol");
                   ("s1", MessageSend Scenario.greeting)]).1) = [h]
          ∧ m' ∈ h ∧ recipients m' = [Scenario.bob_id] ∧ content m' = "psst".
Proof.
  destruct (private_message_is_in_later_history Scenario.signed_in "s1" "s2"
              Scenario.aside
              [("s3", Scenario.join_as "carol");
               ("s1", MessageSend Scenario.greeting)])
    as (h & m & m' & _ & Hh & Hm & _ & Hrec & Hcontent).
  - reflexivity.
  - discriminate.
  - reflexivity.
  - apply Forall_nil_2.
  - reflexivity.
  - vm_compute. lia.
  - exists h, m'. split; [exact Hh|]. split; [exact Hm|]. split; [exact Hrec | exact Hcontent].
Defined.

(** ** Read receipts *)

Lemma on_message_read_state sid p s :
  state_after (SocketHandler.on_message_read sid p) s
  = if String.eqb (messageId p) "" || String.eqb (userId p) "" then s
    else match Store.findById (db s) (messageId p) with
         | inr (Some m) =>
             if bool_decide (userId p ∈ readBy m) then s
             else match Store.save (db s) (set_readBy m (readBy m ++ [userId p])) with
                  | inr d' => with_db s d'
                  | inl _ => s
                  end
         | _ => s
         end.
Proof.
  unfold SocketHandler.on_message_read. run_handler; try done.
  all: repeat match goal with
       | H : negb (bool_decide ?P) = _ |- _ =>
           destruct (bool_decide P); simplify_eq/=
       end; done.
Qed.




(** ** Deleting a message *)

Lemma list_find_delete_ids (ms : list Message) (id : string) i m :
  NoDup (m_id <$> ms) →
  list_find (λ x, m_id x = id) ms = Some (i, m) →
  list_find (λ x, m_id x = id) (delete i ms) = None.
Proof.
  intros Hnd (Hi & Hid & _)%list_find_Some.
  apply list_find_None, Forall_forall. intros x Hx Hxid.
  apply list_elem_of_lookup in Hx as [j Hj].
  assert (∃ j', j' ≠ i ∧ ms !! j' = Some x) as (j' & Hne & Hj').
  { destruct (decide (j < i)) as [Hlt|Hge].
    - rewrite list_lookup_delete_lt in Hj by done. exists j. split; [lia|done].
    - rewrite list_lookup_delete_ge in Hj by lia. exists (S j). split; [lia|done]. }
  apply Hne. eapply (NoDup_lookup (m_id <$> ms) j' i id); [done| |].
  - by rewrite list_lookup_fmap, Hj'; simpl; rewrite Hxid.
  - by rewrite list_lookup_fmap, Hi; simpl; rewrite Hid.
Qed.

Lemma list_find_delete_other (ms : list Message) (id id' : string) i m :
  id' ≠ id →
  list_find (λ x, m_id x = id) ms = Some (i, m) →
  snd <$> list_find (λ x, m_id x = id') (delete i ms)
  = snd <$> list_find (λ x, m_id x = id') ms.
Proof.
  intros Hne (Hi & Hid & _)%list_find_Some.
  rewrite <-(take_drop_middle ms i m Hi) at 2.
  assert (delete i ms = take i ms ++ drop (S i) ms) as ->.
  { rewrite <-(take_drop_middle ms i m Hi) at 1.
    assert (i = List.length (take i ms)) as Hlen.
    { rewrite length_take. apply lookup_lt_Some in Hi. lia. }
    rewrite Hlen at 1. by rewrite delete_middle. }
  destruct (list_find (λ x, m_id x = id') (take i ms)) as [[j y]|] eqn:Hl.
  - by rewrite !(list_find_app_l _ _ _ _ _ Hl).
  - rewrite !list_find_app_r by done. simpl.
    rewrite decide_False by congruence.
    destruct (list_find _ (drop (S i) ms)) as [[j y]|]; done.
Qed.

(** X10. On a healthy store whose message ids are distinct,
    [deleteMessage] answers 200 and the message can no longer be found,
    while every other id is found as before; for an id that is not stored
    it answers 200 as well and the messages are left as they were. *)
Theorem delete_message_removes_one (d : Db) (id : string) :
  healthy d = true → NoDup (m_id <$> messages d) →
  MessageController.code (MessageController.deleteMessage d id).2 = 200
  ∧ Store.findById (MessageController.deleteMessage d id).1 id = inr None
  ∧ (∀ id', id' ≠ id →
       Store.findById (MessageController.deleteMessage d id).1 id'
       = Store.findById d id')
  ∧ (Store.findById d id = inr None →
     messages (MessageController.deleteMessage d id).1 = messages d).
Proof.
  intros Hh Hnd.
  unfold MessageController.deleteMessage, MessageController.findByIdAndDelete,
    Store.findById, Store.guard.
  rewrite Hh. simpl. rewrite ?Hh.
  destruct (list_find (λ m, m_id m = id) (messages d)) as [[i m]|] eqn:Hf; simpl.
  - split; [done|]. split; [by rewrite (list_find_delete_ids _ _ i m)|].
    split; [|done]. intros id' Hne.
    by rewrite (list_find_delete_other _ id id' i m).
  - rewrite ?Hf. repeat split; done.
Qed.

Lemma delete_message_removes_one_witness :
  Store.findById (MessageController.deleteMessage (db Scenario.posted) "m0").1 "m0"
  = inr None.
Proof.
  destruct (delete_message_removes_one (db Scenario.posted) "m0") as (_ & Hgone & _).
  - reflexivity.
  - vm_compute. repeat constructor. set_solver.
  - exact Hgone.
Defined.

(** ** The REST send *)

(** X11. [sendMessage] answers 400 and stores nothing when the sender id
    or the sender name is missing or empty, or when the content is missing
    or empty and no attachment is given. Otherwise the document goes to
    [Message.create]: when an attachment has no url, validation rejects it
    and the answer is 500 with nothing stored; when every attachment has a
    url, on a healthy store, the answer is 201 with the one message it
    stored. The check is made on the content as submitted, the stored
    content is trimmed. *)
Theorem rest_send_validates (d : Db) (body : SendPayload) :
  (negb (JS.truthy (p_senderId body)) || negb (JS.truthy (p_senderName body))
   || (negb (JS.truthy (p_content body)) && negb (JS.has_length (p_attachments body)))
   = true →
   MessageController.sendMessage d body
   = (d, MessageController.BadRequest "Missing required message fields."))
  ∧ (negb (JS.truthy (p_senderId body)) || negb (JS.truthy (p_senderName body))
     || (negb (JS.truthy (p_content body)) && negb (JS.has_length (p_attachments body)))
     = false →
     Exists (λ a, url a = "") (JS.or_empty (p_attachments body)) →
     MessageController.sendMessage d body
     = (d, MessageController.ServerError "Server error while sending message."))
  ∧ (negb (JS.truthy (p_senderId body)) || negb (JS.truthy (p_senderName body))
     || (negb (JS.truthy (p_content body)) && negb (JS.has_length (p_attachments body)))
     = false →
     Forall (λ a, url a ≠ "") (JS.or_empty (p_attachments body)) →
     healthy d = true →
     ∃ m, MessageController.status (MessageController.sendMessage d body).2 = 201
          ∧ (MessageController.sendMessage d body).2 = MessageController.Created m
          ∧ messages (MessageController.sendMessage d body).1 = messages d ++ [m]
          ∧ content m = JS.trim (default "" (p_content body))
          ∧ attachments m = JS.or_empty (p_attachments body)
          ∧ (JS.truthy (p_content body) = true ∨ attachments m ≠ [])).
Proof.
  unfold MessageController.sendMessage.
  split; [|split]; intros Hcheck; rewrite Hcheck; [done| |].
  - intros Hurl.
    apply orb_false_elim in Hcheck as [[Hid Hname]%orb_false_elim Hbody].
    apply negb_false_iff in Hid, Hname.
    unfold Store.create. by rewrite validate_url_missing.
  - intros Hurl Hh.
    apply orb_false_elim in Hcheck as [[Hid Hname]%orb_false_elim Hbody].
    apply negb_false_iff in Hid, Hname.
    destruct (create_healthy_ok d
                {| f_roomId := JS.or_default (p_roomId body) "global";
                   f_senderId := p_senderId body;
                   f_senderName := p_senderName body;
                   f_recipients := JS.or_empty (p_recipients body);
                   f_content := p_content body;
                   f_attachments := JS.or_empty (p_attachments body) |} Hh)
      as (d' & m & -> & Hms & _ & _ & _ & Hcontent & Hatt & _);
      [by apply validate_ok|].
    exists m. simpl. repeat split; try done.
    rewrite Hatt. apply andb_false_iff in Hbody as [Hc|Ha].
    + left. by apply negb_false_iff.
    + right. apply negb_false_iff in Ha.
      by destruct (p_attachments body) as [[|]|].
Qed.

Lemma rest_send_validates_witness :
  MessageController.sendMessage (db Scenario.lobby) Scenario.blank
  = (db Scenario.lobby, MessageController.BadRequest "Missing required message fields.")
  ∧ ∃ m, (MessageController.sendMessage (db Scenario.lobby)
            Scenario.greeting).2 = MessageController.Created m
         ∧ content m = "hi".
Proof.
  split.
  - apply (proj1 (rest_send_validates (db Scenario.lobby) Scenario.blank)).
    reflexivity.
  - destruct (proj2 (proj2 (rest_send_validates (db Scenario.lobby)
                              Scenario.greeting)))
      as (m & _ & Hm & _ & Hcontent & _);
      [reflexivity|apply Forall_nil_2|reflexivity|].
    exists m. split; [exact Hm | exact Hcontent].
Defined.

(** ** Leaving *)

Lemma accounts_save_found d u0 u :
  Accounts.findById d (u_id u) = inr (Some u0) →
  ∃ d', Accounts.save d u = inr d'
        ∧ Accounts.findById d' (u_id u) = inr (Some u)
        ∧ messages d' = messages d.
Proof.
  unfold Accounts.findById, Accounts.save, Store.guard.
  destruct (healthy d) eqn:Hh; [|done].
  destruct (list_find (λ x, u_id x = u_id u) (accounts d)) as [[i x]|] eqn:Hf;
    [|done].
  intros _. eexists. split; [reflexivity|]. simpl. rewrite ?Hh.
  by rewrite (list_find_insert _ _ i x u Hf).
Qed.

(** X12. When a socket closes, the user bound to it is written to the
    store as offline and without socket, whether or not another socket is
    still bound to the same user, and the presence snapshot without the
    closed socket and a notice with the user's name are emitted to the
    sockets that remain. A socket that never joined writes nothing and is
    announced as "A user". *)
Theorem disconnect_marks_user_offline (s : Server) (sid : string) :
  match JSMap.get sid (onlineUsers s) with
  | Some u =>
      ∀ u0, Accounts.findById (db s) (u_id u) = inr (Some u0) →
        Accounts.findById (db (step s sid Disconnect).1) (u_id u)
        = inr (Some (SocketHandler.set_offline u))
        ∧ (step s sid Disconnect).2
          = [Emit ToAll (sockets s ∖ {[sid]}) "users:online"
               (BUsers (SocketHandler.snapshot (step s sid Disconnect).1));
             Emit ToAll (sockets s ∖ {[sid]}) "notification"
               (BNotification "user-leave"
                  (JS.or_default (Some (username u)) "A user" +:+ " left the chat") [])]
  | None =>
      db (step s sid Disconnect).1 = db s
      ∧ (step s sid Disconnect).2
        = [Emit ToAll (sockets s ∖ {[sid]}) "users:online"
             (BUsers (SocketHandler.snapshot (step s sid Disconnect).1));
           Emit ToAll (sockets s ∖ {[sid]}) "notification"
             (BNotification "user-leave" "A user left the chat" [])]
  end.
Proof.
  unfold step, dispatch, SocketHandler.on_disconnect,
    SocketHandler.broadcastOnlineUsers, SocketHandler.sendNotification,
    run, bind, get_state, modify, emit, try_catch, update, ret.
  simpl. destruct (JSMap.get sid (onlineUsers s)) as [u|] eqn:Hget; simpl; [|done].
  intros u0 Hfind.
  destruct (accounts_save_found (db s) u0 (SocketHandler.set_offline u) Hfind)
    as (d' & Hsave & Hfind' & _).
  simpl in Hsave. rewrite Hsave. simpl. done.
Qed.

Lemma disconnect_marks_user_offline_witness :
  ∃ u, Accounts.findById (db (step Scenario.twice "s1" Disconnect).1) "u0"
       = inr (Some u)
       ∧ isOnline u = false
       ∧ JSMap.get "s2" (onlineUsers (step Scenario.twice "s1" Disconnect).1) ≠ None.
Proof.
  pose proof (disconnect_marks_user_offline Scenario.twice "s1") as H.
  assert (JSMap.get "s1" (onlineUsers Scenario.twice)
          = Some {| u_id := "u0"; username := "alice"; isOnline := true;
                    socketId := Some "s1" |}) as Hget by reflexivity.
  rewrite Hget in H. edestruct H as [Hfind _]; [reflexivity|].
  eexists. split; [exact Hfind|]. split; [reflexivity|]. discriminate.
Defined.

(** ** Joining and leaving a room *)

(** X13. A room join with a non-empty room id makes the socket a member of
    the room, and joining twice is joining once; a leave after it takes the
    socket out again and leaves the other members and the other rooms as
    they were. With a missing or empty room id both events do nothing at
    all. *)
Theorem room_join_then_leave (s : Server) (sid r : string) :
  r ≠ "" →
  sid ∈ Rooms.members (rooms (state_after (SocketHandler.on_room_join sid (Some r)) s)) r
  ∧ rooms (state_after (SocketHandler.on_room_join sid (Some r))
             (state_after (SocketHandler.on_room_join sid (Some r)) s))
    = rooms (state_after (SocketHandler.on_room_join sid (Some r)) s)
  ∧ (∀ r', Rooms.members
             (rooms (state_after (SocketHandler.on_room_leave sid (Some r))
                       (state_after (SocketHandler.on_room_join sid (Some r)) s))) r'
           = if decide (r' = r) then Rooms.members (rooms s) r ∖ {[sid]}
             else Rooms.members (rooms s) r')
  ∧ run (SocketHandler.on_room_join sid None) s = (s, [])
  ∧ run (SocketHandler.on_room_join sid (Some "")) s = (s, [])
  ∧ run (SocketHandler.on_room_leave sid None) s = (s, [])
  ∧ run (SocketHandler.on_room_leave sid (Some "")) s = (s, []).
Proof.
  intros Hr.
  assert (JS.truthy (Some r) = true) as Ht.
  { simpl. by rewrite (proj2 (String.eqb_neq r "") Hr). }
  pose proof (on_room_join_registries sid (Some r) s) as (_ & _ & Hj).
  pose proof (on_room_join_registries sid (Some r)
                (state_after (SocketHandler.on_room_join sid (Some r)) s))
    as (_ & _ & Hjj).
  pose proof (on_room_leave_registries sid (Some r)
                (state_after (SocketHandler.on_room_join sid (Some r)) s))
    as (_ & _ & Hl).
  rewrite Ht in Hj, Hjj, Hl. simpl in Hj, Hjj, Hl.
  split; [rewrite Hj, members_join, decide_True by done; set_solver|].
  split.
  - rewrite Hjj, Hj. unfold Rooms.join at 1.
    rewrite members_join, decide_True by done. unfold Rooms.join.
    rewrite insert_insert_eq. f_equal. set_solver.
  - split; [|by repeat split]. intros r'. rewrite Hl, members_leave, Hj, !members_join.
    destruct (decide (r' = r)) as [->|Hne].
    + rewrite decide_True by done. set_solver.
    + done.
Qed.

Lemma room_join_then_leave_witness :
  "s1" ∈ Rooms.members
           (rooms (state_after (SocketHandler.on_room_join "s1" (Some "lounge"))
                     Scenario.lobby)) "lounge".
Proof.
  destruct (room_join_then_leave Scenario.lobby "s1" "lounge") as [Hin _].
  - discriminate.
  - exact Hin.
Defined.

(** ** How often a send is delivered *)

Lemma deliveries_app ev k t1 t2 :
  deliveries ev k (t1 ++ t2) = deliveries ev k t1 + deliveries ev k t2.
Proof. unfold deliveries. by rewrite emitted_app, filter_app, length_app. Qed.

Lemma deliveries_recipients s (l : list string) k b :
  deliveries "message:new" k
    ((λ x, Emit (ToRoom (user_room x)) (receivers s (ToRoom (user_room x)))
             "message:new" b) <$> l)
  = List.length (filter (λ r, k ∈ Rooms.members (rooms s) (user_room r)) l).
Proof.
  induction l as [|x l IH]; [done|].
  rewrite fmap_cons.
  change (Emit ?tg ?r ?ev ?b' :: ?t) with ([Emit tg r ev b'] ++ t).
  rewrite deliveries_app, IH, filter_cons. unfold deliveries. simpl.
  rewrite filter_cons, filter_nil. simpl.
  by destruct (decide _).
Qed.

Lemma on_message_send_to_recipients sid payload s d' m id ids :
  Store.create (db s) (SocketHandler.fields_of payload) = inr (d', m) →
  JS.startsWith (p_roomId payload) "private:" = false →
  p_recipients payload = Some (id :: ids) →
  ∃ n, trace_of (SocketHandler.on_message_send sid payload) s
       = ((λ x, Emit (ToRoom (user_room x)) (receivers s (ToRoom (user_room x)))
                  "message:new" (BMessage m)) <$> (id :: ids))
         ++ [Emit (ToSocket sid) {[sid]} "message:new" (BMessage m);
             Emit ToAll (sockets s) "notification" n].
Proof.
  intros Hc Hp Hrec.
  unfold trace_of, run, SocketHandler.on_message_send, try_catch, bind, insert_doc,
    SocketHandler.sendNotification, SocketHandler.emit_to_rooms.
  rewrite Hc, Hp, Hrec. cbn [JS.has_length JS.or_empty]. unfold bind.
  rewrite (for_each_emit _ (λ x, ToRoom (user_room x))). simpl.
  eexists. rewrite <-app_assoc. reflexivity.
Qed.

(** X14. When a stored message is sent to a recipient list, a socket
    receives ["message:new"] once for every listed recipient whose room
    ["user:<id>"] it is a member of, and the sender's socket once more for
    the echo: a sender who sits in the room of a recipient, or a recipient
    listed twice, gets the message more than once. *)
Theorem recipients_fan_out_counts (s : Server) (sid : string) (payload : SendPayload)
    (d' : Db) (m : Message) (id : string) (ids : list string) (k : string) :
  Store.create (db s) (SocketHandler.fields_of payload) = inr (d', m) →
  JS.startsWith (p_roomId payload) "private:" = false →
  p_recipients payload = Some (id :: ids) →
  deliveries "message:new" k (trace_of (SocketHandler.on_message_send sid payload) s)
  = List.length (filter (λ r, k ∈ Rooms.members (rooms s) (user_room r)) (id :: ids))
    + (if decide (k = sid) then 1 else 0).
Proof.
  intros Hc Hp Hrec.
  destruct (on_message_send_to_recipients sid payload s d' m id ids Hc Hp Hrec)
    as [n ->].
  rewrite deliveries_app, deliveries_recipients. f_equal.
  unfold deliveries. simpl. rewrite filter_cons, filter_nil. simpl.
  destruct (decide (k = sid)) as [->|Hne].
  - rewrite decide_True by set_solver. done.
  - rewrite decide_False by set_solver. done.
Qed.

Lemma recipients_fan_out_counts_witness :
  deliveries "message:new" "s2"
    (trace_of (SocketHandler.on_message_send "s1" Scenario.direct) Scenario.signed_in)
  = List.length
      (filter (λ r, "s2" ∈ Rooms.members (rooms Scenario.signed_in) (user_room r))
         [Scenario.bob_id])
    + 0.
Proof.
  eapply (recipients_fan_out_counts Scenario.signed_in "s1" Scenario.direct _ _
            Scenario.bob_id [] "s2");
    reflexivity.
Defined.

(** ** The client's retries *)

Lemma send_message_answers sid message s :
  ∃ a, acks (step s sid (SendMessage message true)).2 = [a]
       ∧ match Store.create (db s) (SocketHandler.fields_of message) with
         | inr (_, m) => a = AckDelivered m
         | inl e => a = AckError e
         end.
Proof.
  unfold step, dispatch. pose proof (on_send_message_run sid message true s) as H.
  destruct (Store.create _ _) as [e|[d' m]].
  - rewrite H. by eexists.
  - destruct H as (t & n & -> & Ha & _). eexists. simpl.
    rewrite !acks_app, Ha. by split.
Qed.

(** X15. [sendMessage] of the client emits [send_message] at least once
    and at most three times, stops at the first acknowledgement that is
    back in time, and calls the caller's callback exactly once: with
    ["failed"] exactly when none of the three attempts was acknowledged in
    time. Without an initialised socket it emits nothing and reports
    ["failed"]. *)
Theorem client_send_retries_twice (fate : nat → Client.Fate) (sid : string)
    (message : SendPayload) (s : Server) :
  Client.emits (Client.sendMessage true fate sid message true s).2
  = match fate 0, fate 1 with
    | Client.InTime, _ => 1
    | _, Client.InTime => 2
    | _, _ => 3
    end
  ∧ List.length (Client.calls (Client.sendMessage true fate sid message true s).2) = 1
  ∧ (Client.calls (Client.sendMessage true fate sid message true s).2 = [Client.Failed]
     ↔ fate 0 ≠ Client.InTime ∧ fate 1 ≠ Client.InTime ∧ fate 2 ≠ Client.InTime)
  ∧ Client.calls (Client.sendMessage true fate sid message false s).2 = []
  ∧ Client.sendMessage false fate sid message true s = (s, [Client.Called Client.Failed]).
Proof.
  unfold Client.sendMessage. cbn [negb].
  destruct (fate 0) eqn:F0, (fate 1) eqn:F1, (fate 2) eqn:F2;
    cbn [Client.attemptSend Client.attempt]; rewrite ?F0, ?F1, ?F2;
    repeat (cbn [Client.attemptSend Client.attempt head]; rewrite ?F0, ?F1, ?F2;
            try match goal with
            | |- context [acks (step ?s0 sid (SendMessage message true)).2] =>
                destruct (send_message_answers sid message s0) as (? & -> & _)
            end);
    cbn [snd Client.emits Client.calls List.length];
    (repeat split; try done; naive_solver).
Qed.

Lemma client_send_retries_twice_witness :
  Client.calls (Client.sendMessage true (λ _, Client.Late) "s1"
                  (Scenario.text None "hi") true Scenario.lobby).2
  = [Client.Failed].
Proof.
  destruct (client_send_retries_twice (λ _, Client.Late) "s1"
              (Scenario.text None "hi") Scenario.lobby) as (_ & _ & Hfailed & _).
  apply Hfailed. repeat split; discriminate.
Defined.

Lemma send_message_stores sid message s :
  healthy (db s) = true →
  Store.validate (SocketHandler.fields_of message) = inr tt →
  List.length (messages (db (step s sid (SendMessage message true)).1))
  = S (List.length (messages (db s)))
  ∧ healthy (db (step s sid (SendMessage message true)).1) = true.
Proof.
  intros Hh Hvalid. unfold step, dispatch.
  pose proof (on_send_message_run sid message true s) as H.
  destruct (create_healthy_ok (db s) (SocketHandler.fields_of message) Hh Hvalid)
    as (d' & m & Hc & Hms & Hh' & _).
  rewrite Hc in H. destruct H as (t & n & -> & _). simpl.
  rewrite Hms, length_app. simpl. split; [lia|done].
Qed.

(** X16. The client's retries are not idempotent on the server: on a
    healthy store every attempt that reaches the server with a message
    that passes the schema validation (a sender id, a sender name, a url on
    every attachment) stores one more message, whether or not its
    acknowledgement is back in time. Three attempts that are handled but
    acknowledged too late leave three copies while the caller is told the
    send failed. *)
Theorem client_retries_store_duplicates (fate : nat → Client.Fate) (sid : string)
    (message : SendPayload) (callback : bool) (s : Server) :
  healthy (db s) = true →
  Store.validate (SocketHandler.fields_of message) = inr tt →
  List.length (messages (db (Client.sendMessage true fate sid message callback s).1))
  = List.length (messages (db s))
    + Client.served fate 0
        (Client.emits (Client.sendMessage true fate sid message callback s).2).
Proof.
  intros Hh Hvalid.
  destruct (send_message_stores sid message s Hh Hvalid) as [L1 Hh1].
  destruct (send_message_stores sid message _ Hh1 Hvalid) as [L2 Hh2].
  destruct (send_message_stores sid message _ Hh2 Hvalid) as [L3 Hh3].
  destruct (send_message_stores sid message
              (step s sid (SendMessage message true)).1 Hh1 Hvalid) as [L12 Hh12].
  unfold Client.sendMessage. cbn [negb].
  destruct (fate 0) eqn:F0, (fate 1) eqn:F1, (fate 2) eqn:F2;
    cbn [Client.attemptSend Client.attempt]; rewrite ?F0, ?F1, ?F2;
    repeat (cbn [Client.attemptSend Client.attempt head]; rewrite ?F0, ?F1, ?F2;
            try match goal with
            | |- context [acks (step ?s0 sid (SendMessage message true)).2] =>
                destruct (send_message_answers sid message s0) as (? & -> & _)
            end);
    destruct callback;
    cbn [fst snd Client.emits Client.served]; rewrite ?F0, ?F1, ?F2;
    repeat match goal with
    | |- context [messages (db (step ?s0 sid (SendMessage message true)).1)] =>
        let H := fresh in let H' := fresh in
        assert (healthy (db s0) = true) as H' by done;
        destruct (send_message_stores sid message s0 H' Hvalid) as [H _];
        rewrite H; clear H H'
    end; lia.
Qed.

Lemma client_retries_store_duplicates_witness :
  List.length
    (messages (db (Client.sendMessage true (λ _, Client.Late) "s1"
                     Scenario.greeting true Scenario.lobby).1))
  = 0 + 3.
Proof.
  apply (client_retries_store_duplicates (λ _, Client.Late) "s1"
           Scenario.greeting true Scenario.lobby); reflexivity.
Defined.

(** X17. What the caller is told when the first acknowledgement is back in
    time: the first argument the server passed, which is [null] when the
    message was stored and the error when storing failed. A failure that
    the server acknowledges is not retried. *)
Theorem client_reports_first_argument (fate : nat → Client.Fate) (sid : string)
    (message : SendPayload) (s : Server) :
  fate 0 = Client.InTime →
  (Client.sendMessage true fate sid message true s).2
  = [Client.Emitted;
     Client.Called
       (Client.Passed
          match Store.create (db s) (SocketHandler.fields_of message) with
          | inr _ => None
          | inl e => Some e
          end)]
  ∧ (Client.sendMessage true fate sid message true s).1
    = (step s sid (SendMessage message true)).1.
Proof.
  intros F0. unfold Client.sendMessage. cbn [negb Client.attemptSend Client.attempt].
  rewrite F0. cbn [Client.attempt].
  destruct (send_message_answers sid message s) as (a & -> & Ha).
  cbn [head]. split; [|done].
  destruct (Store.create _ _) as [e|[d' m]]; by subst a.
Qed.

Lemma client_reports_first_argument_witness :
  (Client.sendMessage true (λ _, Client.InTime) "s1" Scenario.blank true Scenario.lobby).2
  = [Client.Emitted; Client.Called (Client.Passed None)].
Proof.
  destruct (client_reports_first_argument (λ _, Client.InTime) "s1" Scenario.blank
              Scenario.lobby) as [Hreport _].
  - reflexivity.
  - exact Hreport.
Defined.

(** ** Joining as a user *)

(** X18. A join that carries neither a user id nor a name (or no payload
    at all) binds nobody: the presence map, the rooms and the store stay as
    they are. On a healthy store the presence snapshot, the history of the
    global room and the notice "A user joined the chat" are emitted all the
    same. *)
Theorem anonymous_join_binds_nobody (s : Server) (sid : string)
    (userData : option JoinPayload) :
  JS.truthy (userData ≫= j_userId) = false →
  JS.truthy (userData ≫= j_username) = false →
  state_after (SocketHandler.on_user_join sid userData) s = s
  ∧ (healthy (db s) = true →
     trace_of (SocketHandler.on_user_join sid userData) s
     = [Emit ToAll (sockets s) "users:online" (BUsers (SocketHandler.snapshot s));
        Emit (ToSocket sid) {[sid]} "messages:history"
          (BHistory (take 100 (Store.sort_asc (Store.in_room (db s) "global"))));
        Emit ToAll (sockets s) "notification"
          (BNotification "user-join" "A user joined the chat" [])]).
Proof.
  intros Hid Hname.
  unfold state_after, trace_of, run, SocketHandler.on_user_join, try_catch, bind,
    ret, SocketHandler.broadcastOnlineUsers, SocketHandler.sendNotification,
    get_state, emit, query, log, SocketHandler.history_limit.
  rewrite Hid, Hname. simpl. split.
  - by destruct (Store.find_asc_limit (db s) "global" 100).
  - intros Hh. by rewrite find_asc_limit_healthy.
Qed.

Lemma anonymous_join_binds_nobody_witness :
  state_after (SocketHandler.on_user_join "s1" None) Scenario.twice = Scenario.twice.
Proof.
  destruct (anonymous_join_binds_nobody Scenario.twice "s1" None) as [Hsame _].
  - reflexivity.
  - reflexivity.
  - exact Hsame.
Defined.

(** X19. On a healthy store a join by a name that an account already has
    creates no account: the accounts stay as many as they were and the
    socket is bound to the account found, now online on this socket. *)
Theorem join_by_name_reuses_account (s : Server) (sid name : string) (u : User) :
  healthy (db s) = true → name ≠ "" →
  Accounts.findOne (db s) name = inr (Some u) →
  List.length
    (accounts (db (state_after
                     (SocketHandler.on_user_join sid
                        (Some {| j_username := Some name; j_userId := None |})) s)))
  = List.length (accounts (db s))
  ∧ JSMap.get sid
      (onlineUsers (state_after
                      (SocketHandler.on_user_join sid
                         (Some {| j_username := Some name; j_userId := None |})) s))
    = Some (SocketHandler.set_online u sid).
Proof.
  intros Hh Hname Hfind.
  unfold state_after, run, SocketHandler.on_user_join, try_catch, bind, query,
    insert_doc, update, modify, SocketHandler.broadcastOnlineUsers, get_state,
    emit, SocketHandler.sendNotification, log, ret.
  simpl. rewrite (proj2 (String.eqb_neq name "") Hname). simpl.
  unfold Accounts.findOne, Accounts.create, Accounts.save,
    Store.find_asc_limit, Store.guard in *.
  rewrite Hh in *. simpl.
  destruct (list_find (λ u, username u = name) (accounts (db s)))
    as [[i u']|] eqn:Hf; simplify_eq/=.
  rewrite ?Hh. simpl. rewrite ?Hh. simpl.
  rewrite JSMap_get_set_eq. split; [|done].
  destruct (list_find (λ x, u_id x = u_id u) (accounts (db s))) as [[j x]|];
    [apply length_insert|done].
Qed.

Lemma join_by_name_reuses_account_witness :
  List.length (accounts (db Scenario.twice)) = 1.
Proof.
  change Scenario.twice
    with (state_after (SocketHandler.on_user_join "s2"
                         (Some {| j_username := Some "alice"; j_userId := None |}))
            (step Scenario.lobby "s1" (Scenario.join_as "alice")).1).
  edestruct (join_by_name_reuses_account
               (step Scenario.lobby "s1" (Scenario.join_as "alice")).1 "s2" "alice")
    as [Hlen _].
  - reflexivity.
  - discriminate.
  - reflexivity.
  - rewrite Hlen. reflexivity.
Defined.

(** ** A failing store *)

Lemma create_unhealthy d f :
  healthy d = false →
  Store.create d f
  = inl match Store.validate f with inl e => e | inr _ => StorageError end.
Proof.
  intros Hh. unfold Store.create, Store.guard. rewrite Hh.
  by destruct (Store.validate f).
Qed.

Lemma findById_unhealthy d id :
  healthy d = false → Store.findById d id = inl StorageError.
Proof. intros Hh. unfold Store.findById, Store.guard. by rewrite Hh. Qed.

(** X20. While the store fails, the events that write a message change
    nothing and emit nothing: the error is logged, and only [send_message]
    tells the sender, through its acknowledgement. A new message is
    validated before the store is reached, so the error is the validation
    error for a message that does not pass validation and the storage
    error for one that does; a reaction and a read receipt fail with the
    storage error when the message is looked up. *)
Theorem storage_failure_is_silent (s : Server) (sid : string) :
  healthy (db s) = false →
  (∀ payload,
     step s sid (MessageSend payload)
     = (s, [Log "message:send error"
              match Store.validate (SocketHandler.fields_of payload) with
              | inl e => e
              | inr _ => StorageError
              end]))
  ∧ (∀ payload,
       step s sid (SendMessage payload true)
       = (s, [Log "send_message error"
                match Store.validate (SocketHandler.fields_of payload) with
                | inl e => e
                | inr _ => StorageError
                end;
              Ack (AckError
                     match Store.validate (SocketHandler.fields_of payload) with
                     | inl e => e
                     | inr _ => StorageError
                     end)]))
  ∧ (∀ p, ∃ e, step s sid (PrivateMessage p) = (s, [Log "private_message error" e])
               ∧ (pm_senderId p ≠ "" → JS.truthy (pm_senderName p) = true →
                  Forall (λ a, url a ≠ "") (JS.or_empty (pm_attachments p)) →
                  e = StorageError))
  ∧ (∀ p, step s sid (MessageReact p)
          = (s, [Log "message:react error" StorageError]))
  ∧ (∀ p, messageId p ≠ "" → userId p ≠ "" →
          step s sid (MessageRead p) = (s, [Log "message:read error" StorageError])).
Proof.
  intros Hh. split; [|split; [|split; [|split]]].
  - intros payload. unfold step, dispatch.
    pose proof (on_message_send_run sid payload s) as H.
    by rewrite create_unhealthy in H.
  - intros payload. unfold step, dispatch.
    pose proof (on_send_message_run sid payload true s) as H.
    by rewrite create_unhealthy in H.
  - intros p. unfold step, dispatch, run, SocketHandler.on_private_message,
      try_catch, bind, insert_doc, log.
    rewrite create_unhealthy by done. eexists. split; [reflexivity|].
    intros Hid Hname Hurl. rewrite validate_ok; [done| |done|done].
    simpl. by rewrite (proj2 (String.eqb_neq (pm_senderId p) "") Hid).
  - intros p. unfold step, dispatch, run, SocketHandler.on_message_react,
      try_catch, bind, query, log.
    by rewrite findById_unhealthy.
  - intros p Hmid Huid. unfold step, dispatch, run, SocketHandler.on_message_read,
      try_catch, bind, query, log.
    rewrite (proj2 (String.eqb_neq _ "") Hmid), (proj2 (String.eqb_neq _ "") Huid).
    simpl. by rewrite findById_unhealthy.
Qed.

Lemma storage_failure_is_silent_witness :
  step (with_db Scenario.lobby
          {| messages := []; accounts := []; clock := 0; writes := 0;
             healthy := false |}) "s1" (MessageSend Scenario.greeting)
  = (with_db Scenario.lobby
       {| messages := []; accounts := []; clock := 0; writes := 0;
          healthy := false |},
     [Log "message:send error" StorageError]).
Proof.
  apply (storage_failure_is_silent
           (with_db Scenario.lobby
              {| messages := []; accounts := []; clock := 0; writes := 0;
                 healthy := false |}) "s1").
  reflexivity.
Defined.

(** ** Delivery receipts *)

Lemma on_message_delivered_state sid p s :
  state_after (SocketHandler.on_message_delivered sid p) s = s.
Proof.
  unfold state_after, run, SocketHandler.on_message_delivered, try_catch, bind,
    emit, query.
  destruct (Store.findById (db s) (messageId p)) as [e|[m|]] eqn:Hfind;
    simpl; try done.
  pose proof (findById_healthy _ _ _ Hfind) as Hh.
  destruct (bool_decide (userId p ∈ deliveredBy m)); simpl; [done|].
  unfold update, Store.save_untracked, Store.guard. rewrite Hh. simpl.
  by destruct s.
Qed.

(** X21. A delivery receipt is idempotent in the store and never touches
    [readBy]: a second receipt with the same payload leaves the server
    state as the first one left it, and a read receipt never touches
    [deliveredBy]. *)
Theorem delivery_receipt_is_idempotent (s : Server) (sid sid' : string) (p : Receipt) :
  (step (step s sid (MessageDelivered p)).1 sid' (MessageDelivered p)).1
  = (step s sid (MessageDelivered p)).1
  ∧ (∀ m, Store.findById (db s) (messageId p) = inr (Some m) →
       ∃ m', Store.findById (db (step s sid (MessageDelivered p)).1) (messageId p)
             = inr (Some m')
             ∧ readBy m' = readBy m ∧ reactions m' = reactions m)
  ∧ (∀ m, Store.findById (db s) (messageId p) = inr (Some m) →
       ∃ m', Store.findById (db (step s sid (MessageRead p)).1) (messageId p)
             = inr (Some m')
             ∧ deliveredBy m' = deliveredBy m ∧ reactions m' = reactions m).
Proof.
  assert (∀ k s0, (step s0 k (MessageDelivered p)).1
                  = state_after (SocketHandler.on_message_delivered k p) s0) as Hstep.
  { intros k s0. unfold step, dispatch, state_after, run, bind,
      ChatNamespace.on_message_delivered, emit.
    by destruct (SocketHandler.on_message_delivered k p s0) as [[? ?] ?]. }
  rewrite !Hstep. split; [|split].
  - by rewrite !on_message_delivered_state.
  - intros m Hfind. rewrite on_message_delivered_state. by exists m.
  - intros m Hfind.
    change (step s sid (MessageRead p)).1
      with (state_after (SocketHandler.on_message_read sid p) s).
    rewrite on_message_read_state.
    destruct (String.eqb (messageId p) "" || String.eqb (userId p) "");
      [by exists m|].
    rewrite Hfind.
    destruct (bool_decide (userId p ∈ readBy m)); [by exists m|].
    destruct (save_found (db s) (messageId p) m
                (set_readBy m (readBy m ++ [userId p])) Hfind)
      as (d' & -> & Hfind' & _); [by apply findById_id in Hfind|].
    eexists. by split.
Qed.

Lemma delivery_receipt_is_idempotent_witness :
  ∃ m', Store.findById (db (step Scenario.posted "s2" (MessageDelivered Scenario.seen)).1)
          "m0" = inr (Some m')
        ∧ readBy m' = [].
Proof.
  destruct (delivery_receipt_is_idempotent Scenario.posted "s2" "s2" Scenario.seen)
    as (_ & Hread & _).
  edestruct Hread as (m' & Hm' & Hr & _); [reflexivity|].
  exists m'. split; [exact Hm' | exact Hr].
Defined.
